(** * tasks-cli: a shallow embedding of [src/index.ts]

    The program is a command-line task list kept in one JSON file.  This
    development embeds its storage functions, its filtered views, its
    commands and its line parser, and proves the properties that the
    specification states about them.

    [src/index.ts] holds two revisions of the program.  The embedding
    follows the first (lines 1 to 353), the one with soft deletion
    ([hidden], [delete], [location]) that the specification and the README
    describe; the second, after the separator line, is an earlier revision
    with another data file and a [clear] command that the first no longer
    has.  The module [Legacy] embeds that revision, for the properties
    that set it apart from the first.

    Conventions of the embedding:
    - a JavaScript [number] holding an identifier or a serial is an integer
      in the range where JavaScript arithmetic is exact; it is a [Z], and
      a property that rests on [nextId++] assumes [safe_integer] of the
      counter;
    - a JavaScript string is a [string] of bytes (the UTF-8 text of the
      file); white space is the ASCII white space that [/\s/] and [trim]
      match, and [toLowerCase] acts on the ASCII letters; a property that
      rests on how a line splits into tokens, or on the length of a name,
      assumes [ascii_only] of the line or the name, where bytes, code
      units and characters are the same;
    - the file system, the clock and the two console streams are the
      fields of a [World], threaded through the commands by a small
      state-and-exception monad. *)

From Stdlib Require Import ZArith Ascii String Decimal DecimalString DecimalZ DecimalPos Lia.
From stdpp Require Import base option list strings.

Local Open Scope Z_scope.

(** ** JavaScript string primitives used by the program *)

Module JS.

(** The white space of [String.prototype.trim] and of the regular
    expression class [\s], restricted to ASCII: TAB, LF, VT, FF, CR, SPACE. *)
Definition is_space (c : ascii) : bool :=
  match nat_of_ascii c with
  | 9%nat | 10%nat | 11%nat | 12%nat | 13%nat | 32%nat => true
  | _ => false
  end.

Fixpoint trimStart (s : string) : string :=
  match s with
  | EmptyString => EmptyString
  | String c r => if is_space c then trimStart r else s
  end.

Fixpoint trimEnd (s : string) : string :=
  match s with
  | EmptyString => EmptyString
  | String c r =>
      match trimEnd r with
      | EmptyString => if is_space c then EmptyString else String c EmptyString
      | r' => String c r'
      end
  end.

(** [s.trim()] *)
Definition trim (s : string) : string := trimEnd (trimStart s).

Definition lower_char (c : ascii) : ascii :=
  let n := nat_of_ascii c in
  if (65 <=? n)%nat && (n <=? 90)%nat then ascii_of_nat (n + 32) else c.

(** [s.toLowerCase()] *)
Fixpoint toLowerCase (s : string) : string :=
  match s with
  | EmptyString => EmptyString
  | String c r => String (lower_char c) (toLowerCase r)
  end.

(** [s.split(/\s+/)]: the pieces between maximal runs of white space.  As
    in JavaScript a leading or a trailing run leaves an empty first or last
    piece, and the empty string splits into one empty piece. *)
Fixpoint split_ws (s : string) : list string :=
  match s with
  | EmptyString => [EmptyString]
  | String c r =>
      if is_space c then
        match r with
        | String c' _ => if is_space c' then split_ws r else EmptyString :: split_ws r
        | EmptyString => EmptyString :: split_ws r
        end
      else
        match split_ws r with
        | t :: ts => String c t :: ts
        | [] => [String c EmptyString]
        end
  end.

(** [parts.join(sep)] *)
Fixpoint join (sep : string) (parts : list string) : string :=
  match parts with
  | [] => EmptyString
  | [p] => p
  | p :: ps => p +:+ sep +:+ join sep ps
  end.

Definition digit_of (c : ascii) : option (uint -> uint) :=
  match c with
  | "0"%char => Some D0 | "1"%char => Some D1 | "2"%char => Some D2
  | "3"%char => Some D3 | "4"%char => Some D4 | "5"%char => Some D5
  | "6"%char => Some D6 | "7"%char => Some D7 | "8"%char => Some D8
  | "9"%char => Some D9
  | _ => None
  end.

(** The longest prefix of decimal digits of [s], as a decimal numeral, and
    what follows it. *)
Fixpoint take_digits (s : string) : uint * string :=
  match s with
  | EmptyString => (Nil, EmptyString)
  | String c r =>
      match digit_of c with
      | Some d => let '(u, rest) := take_digits r in (d u, rest)
      | None => (Nil, s)
      end
  end.

(** [parseInt(s, 10)]: leading white space is skipped, a sign is accepted,
    then the longest run of digits is read and whatever follows is ignored;
    [None] is [NaN], the result when no digit is found. *)
Definition parseInt (s : string) : option Z :=
  let body (t : string) : option Z :=
    match take_digits t with
    | (Nil, _) => None
    | (u, _) => Some (Z.of_uint u)
    end in
  match trimStart s with
  | String "-"%char t => Z.opp <$> body t
  | String "+"%char t => body t
  | t => body t
  end.

End JS.

(** ** The JSON text format of the storage file

    [JSON.stringify(value, null, 2)] and [JSON.parse(text)] on the values
    a task document is made of.  Numbers are integer literals (the way
    JavaScript prints every exact integer of the range used here); a
    literal with a fraction or an exponent, which the program never writes,
    is not read.  Escapes [\uXXXX] are read for the code points below
    U+0080, the only ones [JSON.stringify] writes as escapes here. *)

Module JSON.

#[warnings="-register-all"]
Inductive value : Type :=
  | Null
  | Bool (b : bool)
  | Num (n : Z)
  | Str (s : string)
  | Arr (items : list value)
  | Obj (members : list (string * value)).

Definition nl : string := String (ascii_of_nat 10) EmptyString.

(** The quotation mark, U+0022. *)
Definition dquote : ascii := ascii_of_nat 34.

Fixpoint spaces (n : nat) : string :=
  match n with
  | O => EmptyString
  | S n' => String " " (spaces n')
  end.

Definition hex_digit (n : nat) : ascii :=
  if (n <? 10)%nat then ascii_of_nat (48 + n) else ascii_of_nat (87 + n).

(** QuoteJSONString, one code unit at a time. *)
Definition quote_char (c : ascii) : string :=
  let n := nat_of_ascii c in
  if (n =? 34)%nat then String "\" (String dquote EmptyString)
  else if (n =? 92)%nat then "\\"
  else if (n =? 8)%nat then "\b"
  else if (n =? 9)%nat then "\t"
  else if (n =? 10)%nat then "\n"
  else if (n =? 12)%nat then "\f"
  else if (n =? 13)%nat then "\r"
  else if (n <? 32)%nat then
    "\u00" +:+ String (hex_digit (n / 16)) (String (hex_digit (n mod 16)) EmptyString)
  else String c EmptyString.

Fixpoint quote_chars (s : string) : string :=
  match s with
  | EmptyString => EmptyString
  | String c r => quote_char c +:+ quote_chars r
  end.

Definition quote (s : string) : string :=
  String dquote (quote_chars s +:+ String dquote EmptyString).

Definition print_number (n : Z) : string := NilEmpty.string_of_int (Z.to_int n).

(** What follows the first item of a non-empty array or object: each
    further item on a line of its own after a comma, then the closing
    bracket on a line at the outer indentation. *)
Definition print_tail {A : Type} (item : A -> string) (ind : nat) (close : string)
  : list A -> string :=
  fix more (l : list A) : string :=
    match l with
    | [] => nl +:+ spaces ind +:+ close
    | y :: ys => "," +:+ nl +:+ spaces (ind + 2) +:+ item y +:+ more ys
    end.

(** SerializeJSONProperty with a gap of two spaces; [ind] is the current
    indentation. *)
Fixpoint print (ind : nat) (v : value) : string :=
  match v with
  | Null => "null"
  | Bool true => "true"
  | Bool false => "false"
  | Num n => print_number n
  | Str s => quote s
  | Arr [] => "[]"
  | Arr (x :: xs) =>
      "[" +:+ nl +:+ spaces (ind + 2) +:+ print (ind + 2) x +:+
      print_tail (print (ind + 2)) ind "]" xs
  | Obj [] => "{}"
  | Obj (m :: ms) =>
      let member (kv : string * value) : string :=
        quote (fst kv) +:+ ": " +:+ print (ind + 2) (snd kv) in
      "{" +:+ nl +:+ spaces (ind + 2) +:+ member m +:+ print_tail member ind "}" ms
  end.

(** [JSON.stringify(v, null, 2)] *)
Definition stringify (v : value) : string := print 0 v.

(** JSON white space: space, TAB, LF, CR. *)
Definition is_ws (c : ascii) : bool :=
  match nat_of_ascii c with
  | 9%nat | 10%nat | 13%nat | 32%nat => true
  | _ => false
  end.

Fixpoint skip_ws (s : string) : string :=
  match s with
  | EmptyString => EmptyString
  | String c r => if is_ws c then skip_ws r else s
  end.

Definition hex_value (c : ascii) : option nat :=
  let n := nat_of_ascii c in
  if (48 <=? n)%nat && (n <=? 57)%nat then Some (n - 48)%nat
  else if (97 <=? n)%nat && (n <=? 102)%nat then Some (n - 87)%nat
  else if (65 <=? n)%nat && (n <=? 70)%nat then Some (n - 55)%nat
  else None.

(** The character an escape [\uh1h2h3h4] stands for, below U+0080. *)
Definition unicode_escape (h1 h2 h3 h4 : ascii) : option ascii :=
  a ← hex_value h1; b ← hex_value h2; c ← hex_value h3; d ← hex_value h4;
  let n := (((a * 16 + b) * 16 + c) * 16 + d)%nat in
  if (n <? 128)%nat then Some (ascii_of_nat n) else None.

Definition simple_escape (e : ascii) : option ascii :=
  if Ascii.eqb e dquote then Some dquote else
  match e with
  | "\"%char => Some "\"%char
  | "/"%char => Some "/"%char
  | "b"%char => Some (ascii_of_nat 8)
  | "f"%char => Some (ascii_of_nat 12)
  | "n"%char => Some (ascii_of_nat 10)
  | "r"%char => Some (ascii_of_nat 13)
  | "t"%char => Some (ascii_of_nat 9)
  | _ => None
  end.

(** The characters of a string literal after its opening quote, up to and
    including the closing quote. *)
Fixpoint parse_chars (s : string) : option (string * string) :=
  match s with
  | EmptyString => None
  | String c r =>
      if Ascii.eqb c dquote then Some (EmptyString, r)
      else if Ascii.eqb c "\" then
        match r with
        | String "u" (String h1 (String h2 (String h3 (String h4 r')))) =>
            x ← unicode_escape h1 h2 h3 h4;
            '(t, rest) ← parse_chars r';
            Some (String x t, rest)
        | String e r' =>
            x ← simple_escape e;
            '(t, rest) ← parse_chars r';
            Some (String x t, rest)
        | EmptyString => None
        end
      else if (nat_of_ascii c <? 32)%nat then None
      else
        '(t, rest) ← parse_chars r;
        Some (String c t, rest)
  end.

Definition starts_fraction (s : string) : bool :=
  match s with
  | String c _ => Ascii.eqb c "." || Ascii.eqb c "e" || Ascii.eqb c "E"
  | EmptyString => false
  end.

(** An integer literal without its sign: no leading zero, no fraction. *)
Definition parse_digits (s : string) : option (Z * string) :=
  let '(u, rest) := JS.take_digits s in
  match u with
  | Nil => None
  | D0 (D0 _ | D1 _ | D2 _ | D3 _ | D4 _ | D5 _ | D6 _ | D7 _ | D8 _ | D9 _) => None
  | _ => if starts_fraction rest then None else Some (Z.of_uint u, rest)
  end.

Definition parse_number (s : string) : option (Z * string) :=
  match s with
  | EmptyString => None
  | String c t =>
      if Ascii.eqb c "-" then '(n, rest) ← parse_digits t; Some (- n, rest)
      else parse_digits s
  end.

Fixpoint expect (word s : string) : option string :=
  match word, s with
  | EmptyString, _ => Some s
  | String a word', String b s' => if Ascii.eqb a b then expect word' s' else None
  | _, EmptyString => None
  end.

Fixpoint parse_value (fuel : nat) (s : string) : option (value * string) :=
  match fuel with
  | O => None
  | S fuel' =>
      match skip_ws s with
      | EmptyString => None
      | String c r =>
          if Ascii.eqb c dquote then
            '(t, rest) ← parse_chars r; Some (Str t, rest)
          else if Ascii.eqb c "[" then
            match skip_ws r with
            | EmptyString => None
            | String c' r' =>
                if Ascii.eqb c' "]" then Some (Arr [], r')
                else '(l, rest) ← parse_elements fuel' (String c' r'); Some (Arr l, rest)
            end
          else if Ascii.eqb c "{" then
            match skip_ws r with
            | EmptyString => None
            | String c' r' =>
                if Ascii.eqb c' "}" then Some (Obj [], r')
                else '(l, rest) ← parse_members fuel' (String c' r'); Some (Obj l, rest)
            end
          else if Ascii.eqb c "t" then rest ← expect "rue" r; Some (Bool true, rest)
          else if Ascii.eqb c "f" then rest ← expect "alse" r; Some (Bool false, rest)
          else if Ascii.eqb c "n" then rest ← expect "ull" r; Some (Null, rest)
          else '(n, rest) ← parse_number (String c r); Some (Num n, rest)
      end
  end
with parse_elements (fuel : nat) (s : string) : option (list value * string) :=
  match fuel with
  | O => None
  | S fuel' =>
      '(v, r) ← parse_value fuel' s;
      match skip_ws r with
      | EmptyString => None
      | String c r' =>
          if Ascii.eqb c "," then
            '(vs, rest) ← parse_elements fuel' r'; Some (v :: vs, rest)
          else if Ascii.eqb c "]" then Some ([v], r')
          else None
      end
  end
with parse_members (fuel : nat) (s : string) : option (list (string * value) * string) :=
  match fuel with
  | O => None
  | S fuel' =>
      match skip_ws s with
      | EmptyString => None
      | String q r =>
          if Ascii.eqb q dquote then
            '(k, r1) ← parse_chars r;
            match skip_ws r1 with
            | EmptyString => None
            | String c r2 =>
                if Ascii.eqb c ":" then
                  '(v, r3) ← parse_value fuel' r2;
                  match skip_ws r3 with
                  | EmptyString => None
                  | String c' r4 =>
                      if Ascii.eqb c' "," then
                        '(ms, rest) ← parse_members fuel' r4; Some ((k, v) :: ms, rest)
                      else if Ascii.eqb c' "}" then Some ([(k, v)], r4)
                      else None
                  end
                else None
            end
          else None
      end
  end.

(** [JSON.parse(text)]; [None] is the SyntaxError it throws. *)
Definition parse (text : string) : option value :=
  '(v, rest) ← parse_value (S (String.length text)) text;
  match skip_ws rest with
  | EmptyString => Some v
  | _ => None
  end.

End JSON.

(** ** Data model ([interface Task], [interface TaskData]) *)

Record Task : Type := mkTask {
  id : Z;
  name : string;
  completed : bool;
  hidden : bool;
  createdAt : string;
  completedAt : option string;
  hiddenAt : option string
}.

Record TaskData : Type := mkTaskData {
  tasks : list Task;
  nextId : Z
}.

(** [{ tasks: [], nextId: 1 }], what [loadTasks] starts from. *)
Definition freshData : TaskData := mkTaskData [] 1.

(** The four field assignments of the commands. *)
Definition setCompleted (t : Task) : Task :=
  mkTask (id t) (name t) true (hidden t) (createdAt t) (completedAt t) (hiddenAt t).

Definition setCompletedAt (stamp : string) (t : Task) : Task :=
  mkTask (id t) (name t) (completed t) (hidden t) (createdAt t) (Some stamp) (hiddenAt t).

Definition setHidden (t : Task) : Task :=
  mkTask (id t) (name t) (completed t) true (createdAt t) (completedAt t) (hiddenAt t).

Definition setHiddenAt (stamp : string) (t : Task) : Task :=
  mkTask (id t) (name t) (completed t) (hidden t) (createdAt t) (completedAt t) (Some stamp).

(** [task.completed = true; task.completedAt = stamp] *)
Definition complete (stamp : string) (t : Task) : Task :=
  setCompletedAt stamp (setCompleted t).


(** *** The document of a [TaskData]

    The object that [JSON.stringify] walks: the five fields every task is
    created with, then [completedAt] and [hiddenAt] when they are set. *)

Definition optional_member (key : string) (field : option string)
  : list (string * JSON.value) :=
  match field with
  | Some s => [(key, JSON.Str s)]
  | None => []
  end.

Definition task_to_json (t : Task) : JSON.value :=
  JSON.Obj
    ([("id", JSON.Num (id t));
      ("name", JSON.Str (name t));
      ("completed", JSON.Bool (completed t));
      ("hidden", JSON.Bool (hidden t));
      ("createdAt", JSON.Str (createdAt t))]
     ++ optional_member "completedAt" (completedAt t)
     ++ optional_member "hiddenAt" (hiddenAt t)).

Definition data_to_json (d : TaskData) : JSON.value :=
  JSON.Obj
    [("tasks", JSON.Arr (map task_to_json (tasks d)));
     ("nextId", JSON.Num (nextId d))].

(** Property access on a parsed object; of two members with one key
    [JSON.parse] keeps the later. *)
Fixpoint member (key : string) (ms : list (string * JSON.value)) : option JSON.value :=
  match ms with
  | [] => None
  | (k, v) :: rest =>
      match member key rest with
      | Some v' => Some v'
      | None => if String.eqb key k then Some v else None
      end
  end.

Definition as_number (v : JSON.value) : option Z :=
  match v with JSON.Num n => Some n | _ => None end.

Definition as_string (v : JSON.value) : option string :=
  match v with JSON.Str s => Some s | _ => None end.

Definition as_boolean (v : JSON.value) : option bool :=
  match v with JSON.Bool b => Some b | _ => None end.

(** An optional string property: absent, or a string. *)
Definition as_optional_string (v : option JSON.value) : option (option string) :=
  match v with
  | None => Some None
  | Some (JSON.Str s) => Some (Some s)
  | Some _ => None
  end.

(** Reading a parsed value at the type [Task]; [None] when it does not
    have the declared shape. *)
Definition as_Task (v : JSON.value) : option Task :=
  match v with
  | JSON.Obj ms =>
      i ← member "id" ms ≫= as_number;
      n ← member "name" ms ≫= as_string;
      c ← member "completed" ms ≫= as_boolean;
      h ← member "hidden" ms ≫= as_boolean;
      ca ← member "createdAt" ms ≫= as_string;
      co ← as_optional_string (member "completedAt" ms);
      hi ← as_optional_string (member "hiddenAt" ms);
      Some (mkTask i n c h ca co hi)
  | _ => None
  end.

(** Reading a parsed value at the type [TaskData], the return type that
    [loadTasks] declares for [JSON.parse(content)]. *)
Definition as_TaskData (v : JSON.value) : option TaskData :=
  match v with
  | JSON.Obj ms =>
      ts ← member "tasks" ms;
      n ← member "nextId" ms ≫= as_number;
      match ts with
      | JSON.Arr items => l ← mapM as_Task items; Some (mkTaskData l n)
      | _ => None
      end
  | _ => None
  end.

(** ** The world the program runs in *)

(** Lines written with [console.log] and [process.stdout.write], one
    constructor for each template in the source, with the values the
    template interpolates: [MsgTaskAdded] is "Task added: ...",
    [MsgInvalidTaskNumber] "Invalid task number!", [MsgProvideTaskNumber]
    "Please provide a valid task number!", [MsgInvalidInput] "Invalid
    input!", [MsgNoPendingToDelete] "No pending tasks to delete.",
    [MsgDeletedPending] "Deleted ... pending task(s).", [MsgUnknownCommand]
    "Unknown command: ...", [MsgTypeHelp] "Type 'help' to see available
    commands.", [MsgRule] a horizontal rule, [MsgPrompt] the prompt, and so
    on. *)
Inductive message : Type :=
  | MsgTaskAdded (taskName : string)
  | MsgSerialNumber (serialNumber : nat)
  | MsgNoPending
  | MsgRule
  | MsgPendingHeader
  | MsgPendingItem (num : nat) (taskName : string)
  | MsgTotalPending (total : nat)
  | MsgInvalidTaskNumber
  | MsgCompleted (taskName : string)
  | MsgNoPendingToDelete
  | MsgDeletedPending (count : nat)
  | MsgNoArchivedToDelete
  | MsgDeletedArchived (count : nat)
  | MsgInvalidInput
  | MsgDeleteUsage
  | MsgDeleted (taskName : string)
  | MsgArchiveEmpty
  | MsgArchiveHeader
  | MsgArchiveItem (num : nat) (taskName : string)
  | MsgArchiveCompletedAt (stamp : option string)
  | MsgTotalCompleted (total : nat)
  | MsgHelp
  | MsgLocationHeader
  | MsgLocationPath
  | MsgFileExists (found : bool)
  | MsgGoodbye
  | MsgProvideTaskName
  | MsgAddUsage
  | MsgProvideTaskNumber
  | MsgDoneUsage
  | MsgProvideDeleteTarget
  | MsgUnknownCommand (command : string)
  | MsgTypeHelp
  | MsgPrompt.

(** Lines written with [console.error]. *)
Inductive diagnostic : Type :=
  | ErrLoading
  | ErrSaving.

(** [file] is the content of [DATA_FILE], [None] when it does not exist;
    [writable] tells whether [writeFileSync] succeeds; [clock] gives the
    time stamp of the [tick]-th reading of the clock. *)
Record World : Type := mkWorld {
  file : option string;
  writable : bool;
  clock : nat -> string;
  tick : nat;
  stdout : list message;
  stderr : list diagnostic
}.

(** A computation returns a value and a new world, or throws an exception
    that nothing catches ([None]): a [TypeError], or a stored document
    that is not a [TaskData]. *)
Definition IO (A : Type) : Type := World -> option (A * World).

Definition ret {A : Type} (a : A) : IO A := fun w => Some (a, w).

Definition bind {A B : Type} (m : IO A) (k : A -> IO B) : IO B :=
  fun w => match m w with
           | Some (a, w') => k a w'
           | None => None
           end.

Definition throw {A : Type} : IO A := fun _ => None.

#[global] Instance IO_ret : MRet IO := @ret.
#[global] Instance IO_bind : MBind IO := fun A B k m => bind m k.

Definition console_log (m : message) : IO unit :=
  fun w => Some (tt, mkWorld (file w) (writable w) (clock w) (tick w)
                             (stdout w ++ [m]) (stderr w)).

Definition console_error (e : diagnostic) : IO unit :=
  fun w => Some (tt, mkWorld (file w) (writable w) (clock w) (tick w)
                             (stdout w) (stderr w ++ [e])).

(** [new Date().toISOString()] *)
Definition newDate : IO string :=
  fun w => Some (clock w (tick w),
                 mkWorld (file w) (writable w) (clock w) (S (tick w))
                         (stdout w) (stderr w)).

(** [existsSync(DATA_FILE)] *)
Definition existsSync : IO bool :=
  fun w => Some (bool_decide (is_Some (file w)), w).

(** [writeFileSync(DATA_FILE, text, "utf-8")]; [false] when it throws. *)
Definition writeFileSync (text : string) : IO bool :=
  fun w => if writable w
           then Some (true, mkWorld (Some text) (writable w) (clock w) (tick w)
                                    (stdout w) (stderr w))
           else Some (false, w).

(** ** Data operations *)

(** [loadTasks]: the stored document when the file exists and parses; the
    fresh store when there is no file, and also, after a line on
    [console.error], when [JSON.parse] throws.  A text that parses to
    something that is not a [TaskData] breaks the declared return type:
    no run is modelled from there. *)
Definition loadTasks : IO TaskData :=
  fun w =>
    match file w with
    | Some content =>
        match JSON.parse content with
        | Some doc =>
            match as_TaskData doc with
            | Some data => Some (data, w)
            | None => None
            end
        | None => (console_error ErrLoading ;; ret freshData) w
        end
    | None => Some (freshData, w)
    end.

(** [saveTasks]: the whole document written over the file; a failed write
    is caught and reported on [console.error]. *)
Definition saveTasks (data : TaskData) : IO unit :=
  written ← writeFileSync (JSON.stringify (data_to_json data));
  if written : bool then ret tt else console_error ErrSaving.

(** ** Helper functions *)

Definition getPendingTasks (data : TaskData) : list Task :=
  List.filter (fun task => negb (completed task) && negb (hidden task)) (tasks data).

Definition getArchivedTasks (data : TaskData) : list Task :=
  List.filter (fun task => completed task && negb (hidden task)) (tasks data).

(** [array.findIndex(p)]; [None] is the index -1. *)
Fixpoint findIndex {A : Type} (p : A -> bool) (l : list A) : option nat :=
  match l with
  | [] => None
  | x :: r => if p x then Some O else S <$> findIndex p r
  end.

(** [data.tasks.findIndex((t) => t.id === task.id)] *)
Definition taskIndexOf (task : Task) (data : TaskData) : option nat :=
  findIndex (fun t => Z.eqb (id t) (id task)) (tasks data).

(** [data.tasks[taskIndex].field = value], as the update [f] of the
    element; at index -1 the element is [undefined] and the assignment
    throws. *)
Definition assign (taskIndex : option nat) (f : Task -> Task) (data : TaskData)
  : IO TaskData :=
  match taskIndex with
  | Some i => ret (mkTaskData (alter f i (tasks data)) (nextId data))
  | None => throw
  end.

(** [items.forEach((item, index) => body)] with the state the body
    updates. *)
Fixpoint forEach {A St : Type} (items : list A) (index : nat)
    (body : A -> nat -> St -> IO St) (s : St) : IO St :=
  match items with
  | [] => ret s
  | item :: rest => s' ← body item index s; forEach rest (S index) body s'
  end.

(** ** Commands *)

Definition addTask (taskName : string) : IO unit :=
  data ← loadTasks;
  stamp ← newDate;
  let newTask := mkTask (nextId data) taskName false false stamp None None in
  let data := mkTaskData (tasks data ++ [newTask]) (nextId data + 1) in
  saveTasks data;;
  let pendingTasks := getPendingTasks data in
  let serialNumber := length pendingTasks in
  console_log (MsgTaskAdded taskName);;
  console_log (MsgSerialNumber serialNumber).

Definition displayTasks : IO unit :=
  data ← loadTasks;
  let pendingTasks := getPendingTasks data in
  if bool_decide (length pendingTasks = 0%nat) then console_log MsgNoPending
  else
    console_log MsgRule;;
    console_log MsgPendingHeader;;
    console_log MsgRule;;
    forEach pendingTasks 0%nat
      (fun task index _ => console_log (MsgPendingItem (index + 1) (name task))) tt;;
    console_log MsgRule;;
    console_log (MsgTotalPending (length pendingTasks));;
    console_log MsgRule.

Definition markDone (serialNumber : Z) : IO unit :=
  data ← loadTasks;
  let pendingTasks := getPendingTasks data in
  if (serialNumber <? 1) || (serialNumber >? Z.of_nat (length pendingTasks))
  then console_log MsgInvalidTaskNumber
  else
    match pendingTasks !! Z.to_nat (serialNumber - 1) with
    | None => throw (* [taskToComplete.id] of [undefined] *)
    | Some taskToComplete =>
        let taskIndex := taskIndexOf taskToComplete data in
        data ← assign taskIndex setCompleted data;
        stamp ← newDate;
        data ← assign taskIndex (setCompletedAt stamp) data;
        saveTasks data;;
        console_log (MsgCompleted (name taskToComplete))
    end.

(** The body of both bulk deletions: hide the task found under the id of
    [task] and count it.  The tasks of the view that [forEach] walks are
    the objects of [data.tasks] themselves; the loop reads only their
    [id], which it never writes, so the view taken before the loop gives
    the same run. *)
Definition hideOne (task : Task) (_ : nat) (s : TaskData * nat) : IO (TaskData * nat) :=
  let taskIndex := taskIndexOf task s.1 in
  data ← assign taskIndex setHidden s.1;
  stamp ← newDate;
  data ← assign taskIndex (setHiddenAt stamp) data;
  ret (data, S s.2).

Definition deleteTask (input : string) : IO unit :=
  data ← loadTasks;
  let arg := JS.trim (JS.toLowerCase input) in
  if String.eqb arg "all" then
    let pendingTasks := getPendingTasks data in
    if bool_decide (length pendingTasks = 0%nat) then console_log MsgNoPendingToDelete
    else
      '(data, count) ← forEach pendingTasks 0%nat hideOne (data, 0%nat);
      saveTasks data;;
      console_log (MsgDeletedPending count)
  else if String.eqb arg "archive" then
    let archivedTasks := getArchivedTasks data in
    if bool_decide (length archivedTasks = 0%nat) then console_log MsgNoArchivedToDelete
    else
      '(data, count) ← forEach archivedTasks 0%nat hideOne (data, 0%nat);
      saveTasks data;;
      console_log (MsgDeletedArchived count)
  else
    match JS.parseInt arg with
    | None => console_log MsgInvalidInput;; console_log MsgDeleteUsage
    | Some serialNumber =>
        let pendingTasks := getPendingTasks data in
        if (serialNumber <? 1) || (serialNumber >? Z.of_nat (length pendingTasks))
        then console_log MsgInvalidTaskNumber
        else
          match pendingTasks !! Z.to_nat (serialNumber - 1) with
          | None => throw (* [taskToDelete.id] of [undefined] *)
          | Some taskToDelete =>
              let taskIndex := taskIndexOf taskToDelete data in
              data ← assign taskIndex setHidden data;
              stamp ← newDate;
              data ← assign taskIndex (setHiddenAt stamp) data;
              saveTasks data;;
              console_log (MsgDeleted (name taskToDelete))
          end
    end.

Definition showArchive : IO unit :=
  data ← loadTasks;
  let completedTasks := getArchivedTasks data in
  if bool_decide (length completedTasks = 0%nat) then console_log MsgArchiveEmpty
  else
    console_log MsgRule;;
    console_log MsgArchiveHeader;;
    console_log MsgRule;;
    forEach completedTasks 0%nat
      (fun task index _ =>
         console_log (MsgArchiveItem (index + 1) (name task));;
         console_log (MsgArchiveCompletedAt (completedAt task))) tt;;
    console_log MsgRule;;
    console_log (MsgTotalCompleted (length completedTasks));;
    console_log MsgRule.

Definition showHelp : IO unit := console_log MsgHelp.

Definition showLocation : IO unit :=
  console_log MsgLocationHeader;;
  console_log MsgLocationPath;;
  found ← existsSync;
  console_log (MsgFileExists found).

(** ** Process command *)

(** The command word and the argument string of a trimmed, non-empty
    line: [parts[0].toLowerCase()] and [parts.slice(1).join(" ")]. *)
Definition command_of (trimmed : string) : string :=
  JS.toLowerCase (hd EmptyString (JS.split_ws trimmed)).

Definition args_of (trimmed : string) : string :=
  JS.join " " (tl (JS.split_ws trimmed)).

(** The [switch (command)] of [processCommand]. *)
Definition dispatch (command args : string) : IO unit :=
  if String.eqb command "add" then
    if String.eqb args "" then console_log MsgProvideTaskName;; console_log MsgAddUsage
    else addTask args
  else if String.eqb command "done" then
    match JS.parseInt args with
    | None => console_log MsgProvideTaskNumber;; console_log MsgDoneUsage
    | Some doneNum => markDone doneNum
    end
  else if String.eqb command "delete" then
    if String.eqb args "" then console_log MsgProvideDeleteTarget;; console_log MsgDeleteUsage
    else deleteTask args
  else if String.eqb command "display" || String.eqb command "list"
          || String.eqb command "show" then displayTasks
  else if String.eqb command "archive" then showArchive
  else if String.eqb command "help" then showHelp
  else if String.eqb command "location" then showLocation
  else console_log (MsgUnknownCommand command);; console_log MsgTypeHelp.

Definition processCommand (input : string) : IO bool :=
  let trimmed := JS.trim input in
  if String.eqb trimmed "" then ret true
  else
    let command := command_of trimmed in
    let args := args_of trimmed in
    if String.eqb command "exit" || String.eqb command "quit" || String.eqb command "q"
    then console_log MsgGoodbye;; ret false
    else dispatch command args;; ret true.

(** ** Session driver *)

(** The [for await (const line of console)] loop of [interactiveMode]. *)
Fixpoint readLoop (lines : list string) : IO unit :=
  match lines with
  | [] => ret tt
  | line :: rest =>
      shouldContinue ← processCommand line;
      if shouldContinue : bool then console_log MsgPrompt;; readLoop rest else ret tt
  end.

Definition interactiveMode (lines : list string) : IO unit :=
  showHelp;;
  console_log MsgPrompt;;
  readLoop lines.

Definition singleCommandMode (args : list string) : IO unit :=
  processCommand (JS.join " " args);; ret tt.

(** [main]: [args] is [process.argv.slice(2)], [lines] the standard input. *)
Definition main (args lines : list string) : IO unit :=
  if bool_decide (length args = 0%nat) then interactiveMode lines
  else singleCommandMode args.

(** * Vocabulary of the statements *)

(** ** JSON text *)

Module JSONSpec.
Import JSON.

(** What may follow a printed value: nothing, a comma or a line break. *)
Definition closes (rest : string) : Prop :=
  match rest with
  | EmptyString => True
  | String c _ => c = ","%char \/ c = ascii_of_nat 10
  end.

(** The first character of a printed value: not white space and not a
    closing bracket. *)
Definition head_ok (s : string) : Prop :=
  match s with
  | EmptyString => False
  | String c _ => is_ws c = false /\ Ascii.eqb c "]" = false /\ Ascii.eqb c "}" = false
  end.

(** Reading back a printed value followed by [rest], with more fuel than
    the printed text has characters. *)
Definition reads_back (v : value) : Prop :=
  forall ind fuel rest,
    (String.length (print ind v) < fuel)%nat -> closes rest ->
    parse_value fuel (print ind v +:+ rest) = Some (v, rest).

(** One member of an object as [print] writes it. *)
Definition print_member (ind : nat) (kv : string * value) : string :=
  quote (fst kv) +:+ ": " +:+ print (ind + 2) (snd kv).

End JSONSpec.

(** ** Storage, views and command runs *)

(** The text [saveTasks] writes for [d]. *)
Definition encode (d : TaskData) : string := JSON.stringify (data_to_json d).

(** The [TaskData] that a command finds in storage: what [loadTasks]
    returns, whatever it writes to the console on the way. *)
Definition stored (w : World) : option TaskData := fst <$> loadTasks w.

(** [w] with further lines on its console streams. *)
Definition say (out : list message) (err : list diagnostic) (w : World) : World :=
  mkWorld (file w) (writable w) (clock w) (tick w) (stdout w ++ out) (stderr w ++ err).

(** [w'] is [w] after storing [d'], reading the clock [k] times and
    printing [out]; when the file cannot be written it stays as it was. *)
Definition commits (w : World) (d' : TaskData) (k : nat) (out : list message)
    (w' : World) : Prop :=
  file w' = (if writable w then Some (encode d') else file w) /\
  writable w' = writable w /\ clock w' = clock w /\
  tick w' = (tick w + k)%nat /\ stdout w' = stdout w ++ out.

(** [w'] is [w] after printing [out]: storage and clock untouched. *)
Definition reports (w : World) (out : list message) (w' : World) : Prop :=
  file w' = file w /\ writable w' = writable w /\ clock w' = clock w /\
  tick w' = tick w /\ stdout w' = stdout w ++ out.

(** The data after [addTask]. *)
Definition appended (d : TaskData) (taskName stamp : string) : TaskData :=
  mkTaskData (tasks d ++ [mkTask (nextId d) taskName false false stamp None None])
             (nextId d + 1).

(** The two view predicates, as the filters of [getPendingTasks] and
    [getArchivedTasks] write them. *)
Definition pendingb (task : Task) : bool := negb (completed task) && negb (hidden task).
Definition archivedb (task : Task) : bool := completed task && negb (hidden task).






(** A computation that only prints: it always returns, and leaves the
    storage and the clock as they were. *)
Definition prints {A : Type} (m : IO A) : Prop :=
  forall w, exists a out w', m w = Some (a, w') /\ reports w out w'.

(** A line that reaches the [switch]: not blank, and not an exit word. *)
Definition reaches_switch (line : string) : Prop :=
  let trimmed := JS.trim line in
  trimmed <> "" /\ command_of trimmed <> "exit" /\
  command_of trimmed <> "quit" /\ command_of trimmed <> "q".

(** Visible in the pending view; visible in the archive view. *)
Definition is_pending (t : Task) : Prop := completed t = false /\ hidden t = false.
Definition is_archived (t : Task) : Prop := completed t = true /\ hidden t = false.

(** [s] is the subsequence of [l] made of the elements that satisfy [P],
    in the order of [l]. *)
Inductive subsequence_where {A : Type} (P : A -> Prop) : list A -> list A -> Prop :=
  | sw_nil : subsequence_where P [] []
  | sw_keep x l s : P x -> subsequence_where P l s -> subsequence_where P (x :: l) (x :: s)
  | sw_drop x l s : ~ P x -> subsequence_where P l s -> subsequence_where P (x :: l) s.






(** Every character of [s] satisfies [p]. *)
Fixpoint all_chars (p : ascii -> bool) (s : string) : bool :=
  match s with
  | EmptyString => true
  | String c r => p c && all_chars p r
  end.

(** A token: not empty, no white space. *)
Definition is_word (s : string) : Prop :=
  s <> "" /\ all_chars (fun c => negb (JS.is_space c)) s = true.

(** A separator: not empty, white space only. *)
Definition is_blank (s : string) : Prop :=
  s <> "" /\ all_chars JS.is_space s = true.

(** An argument text: it begins with a character that is not white space. *)
Definition starts_with_text (s : string) : Prop :=
  match s with
  | EmptyString => False
  | String c _ => JS.is_space c = false
  end.

(** A line that reaches [addTask]: its command word is [add] and its
    argument string is not empty. *)
Definition is_add_line (line : string) : Prop :=
  JS.trim line <> "" /\ command_of (JS.trim line) = "add" /\ args_of (JS.trim line) <> "".

(** The name an [add] line gives to its task. *)
Definition task_name (line : string) : string := args_of (JS.trim line).



(** ** Sample stores *)

(** A clock that advances by one minute at each reading. *)
Definition sample_clock (n : nat) : string :=
  "2025-01-15T10:3" +:+ JSON.print_number (Z.of_nat n) +:+ ":00.000Z".

(** No file yet. *)
Definition empty_world : World := mkWorld None true sample_clock 0 [] [].

(** One pending task. *)
Definition one_task : TaskData :=
  mkTaskData [mkTask 1 "Buy milk" false false "2025-01-15T10:00:00.000Z" None None] 2.

(** The file written by [saveTasks one_task]. *)
Definition one_task_world : World :=
  mkWorld (Some (JSON.stringify (data_to_json one_task))) true sample_clock 0 [] [].

(** ** Further vocabulary: exits, listings and histories *)

(** A line whose command word is one of the three exit words. *)
Definition is_exit_line (line : string) : Prop :=
  JS.trim line <> "" /\ In (command_of (JS.trim line)) ["exit"; "quit"; "q"].

(** The words that [processCommand] knows. *)
Definition vocabulary : list string :=
  ["exit"; "quit"; "q"; "add"; "done"; "delete"; "display"; "list"; "show";
   "archive"; "help"; "location"].

(** What [displayTasks] prints for the data [d]. *)
Definition pending_listing (d : TaskData) : list message :=
  match getPendingTasks d with
  | [] => [MsgNoPending]
  | pendingTasks =>
      [MsgRule; MsgPendingHeader; MsgRule]
      ++ imap (fun i task => MsgPendingItem (i + 1) (name task)) pendingTasks
      ++ [MsgRule; MsgTotalPending (length pendingTasks); MsgRule]
  end.





(** The last character of [s], if any, is not white space. *)
Fixpoint no_trailing_space (s : string) : bool :=
  match s with
  | EmptyString => true
  | String c EmptyString => negb (JS.is_space c)
  | String _ r => no_trailing_space r
  end.

(** A computation that cannot change a file that cannot be written. *)
Definition keeps_unwritable {A : Type} (m : IO A) : Prop :=
  forall w a w', writable w = false -> m w = Some (a, w') ->
                 file w' = file w /\ writable w' = false.

(** A computation that returns [a] after printing exactly [out], from any
    world, leaving the storage and the clock as they were. *)
Definition says {A : Type} (m : IO A) (a : A) (out : list message) : Prop :=
  forall w, exists w', m w = Some (a, w') /\ reports w out w' /\ stderr w' = stderr w.

(** A file that is not JSON text. *)
Definition unreadable_world : World :=
  mkWorld (Some "Buy milk, pay rent") true sample_clock 0 [] [].

(** A file that can be read but not written. *)
Definition read_only_world : World :=
  mkWorld (Some (JSON.stringify (data_to_json one_task))) false sample_clock 0 [] [].

(** A line in normal form: its tokens joined by single spaces, the first
    one in lower case. *)
Definition normal_form (line : string) : string :=
  let parts := JS.split_ws (JS.trim line) in
  JS.join " " (JS.toLowerCase (hd EmptyString parts) :: tl parts).



(** ** Where the embedding is exact

    The primitives of [JS] act on bytes.  On a string whose characters
    are all below U+0080 the bytes are the code units of the JavaScript
    string, the white space of [trim], [/\s+/] and [parseInt] is the ASCII
    white space, and [toLowerCase] changes the letters A to Z only.  A
    [number] is a double: [n++] is [n + 1] as long as [n] is a safe
    integer. *)

(** Every character of [s] is below U+0080. *)
Definition ascii_only (s : string) : bool :=
  all_chars (fun c => (nat_of_ascii c <? 128)%nat) s.



(** The first character of [content] after JSON white space can begin a
    JSON value: a quotation mark, a bracket, a brace, a minus sign, a digit
    or the first letter of [true], [false] or [null].  A text for which
    this fails, the empty text included, is no JSON text. *)
Definition starts_json_value (content : string) : bool :=
  match JSON.skip_ws content with
  | EmptyString => false
  | String c _ =>
      Ascii.eqb c JSON.dquote || Ascii.eqb c "[" || Ascii.eqb c "{"
      || Ascii.eqb c "t" || Ascii.eqb c "f" || Ascii.eqb c "n" || Ascii.eqb c "-"
      || match JS.digit_of c with Some _ => true | None => false end
  end.

(** * The earlier revision

    The second document of [src/index.ts] (after the separator line) is
    an earlier revision of the program: tasks have no [hidden] flag, the
    data file is read and written through the asynchronous [Bun] API, the
    commands are [add--], [done--], [display], [archive], [help] and
    [clear], and the line is split at single spaces.  An [await]ed call is
    the call itself; a rejected promise is an exception. *)

Module Legacy.

(** ** String primitives of this revision *)

(** [s.split(" ")]: the pieces between single spaces; two spaces in a
    row leave an empty piece between them. *)
Fixpoint split_space (s : string) : list string :=
  match s with
  | EmptyString => [EmptyString]
  | String c r =>
      if Ascii.eqb c " " then EmptyString :: split_space r
      else
        match split_space r with
        | t :: ts => String c t :: ts
        | [] => [String c EmptyString]
        end
  end.

(** [s.startsWith(p)] *)
Fixpoint startsWith (p s : string) : bool :=
  match p, s with
  | EmptyString, _ => true
  | String a p', String b s' => Ascii.eqb a b && startsWith p' s'
  | String _ _, EmptyString => false
  end.

(** [s.slice(n)] *)
Fixpoint slice (n : nat) (s : string) : string :=
  match n, s with
  | O, _ => s
  | S n', String _ r => slice n' r
  | S _, EmptyString => EmptyString
  end.

(** [s.padEnd(n)] *)
Definition padEnd (n : nat) (s : string) : string :=
  s +:+ JSON.spaces (n - String.length s).

(** [s.slice(0, n)] *)
Fixpoint slice_to (n : nat) (s : string) : string :=
  match n, s with
  | S n', String c r => String c (slice_to n' r)
  | _, _ => EmptyString
  end.

(** ** Data model *)

Record Task : Type := mkTask {
  id : Z;
  name : string;
  completed : bool;
  createdAt : string;
  completedAt : option string
}.

Record TaskData : Type := mkTaskData {
  tasks : list Task;
  nextId : Z
}.

(** [{ tasks: [], nextId: 1 }] *)
Definition freshData : TaskData := mkTaskData [] 1.

Definition setCompleted (t : Task) : Task :=
  mkTask (id t) (name t) true (createdAt t) (completedAt t).

Definition setCompletedAt (stamp : string) (t : Task) : Task :=
  mkTask (id t) (name t) (completed t) (createdAt t) (Some stamp).

Definition task_to_json (t : Task) : JSON.value :=
  JSON.Obj
    ([("id", JSON.Num (id t));
      ("name", JSON.Str (name t));
      ("completed", JSON.Bool (completed t));
      ("createdAt", JSON.Str (createdAt t))]
     ++ optional_member "completedAt" (completedAt t)).

Definition data_to_json (d : TaskData) : JSON.value :=
  JSON.Obj
    [("tasks", JSON.Arr (map task_to_json (tasks d)));
     ("nextId", JSON.Num (nextId d))].

Definition as_Task (v : JSON.value) : option Task :=
  match v with
  | JSON.Obj ms =>
      i ← member "id" ms ≫= as_number;
      n ← member "name" ms ≫= as_string;
      c ← member "completed" ms ≫= as_boolean;
      ca ← member "createdAt" ms ≫= as_string;
      co ← as_optional_string (member "completedAt" ms);
      Some (mkTask i n c ca co)
  | _ => None
  end.

Definition as_TaskData (v : JSON.value) : option TaskData :=
  match v with
  | JSON.Obj ms =>
      ts ← member "tasks" ms;
      n ← member "nextId" ms ≫= as_number;
      match ts with
      | JSON.Arr items => l ← mapM as_Task items; Some (mkTaskData l n)
      | _ => None
      end
  | _ => None
  end.

(** ** The world *)

(** The lines of this revision, one constructor for each template. *)
Inductive message : Type :=
  | MsgTaskAdded (taskName : string)
  | MsgNoPending
  | MsgPendingTop
  | MsgPendingHeader
  | MsgPendingSeparator
  | MsgPendingItem (num : nat) (shown : string)
  | MsgPendingBottom
  | MsgInvalidTaskNumber
  | MsgCompleted (taskName : string)
  | MsgArchiveEmpty
  | MsgArchiveTop
  | MsgArchiveHeader
  | MsgArchiveSeparator
  | MsgArchiveItem (num : nat) (shown : string)
  | MsgArchiveCompletedAt (stamp : option string)
  | MsgArchiveBottom
  | MsgHelp
  | MsgCleared
  | MsgGoodbye
  | MsgProvideTaskName
  | MsgAddUsage
  | MsgProvideTaskNumber
  | MsgDoneUsage
  | MsgUnknownCommand (command : string)
  | MsgTypeHelp
  | MsgPrompt.

Inductive diagnostic : Type :=
  | ErrLoading.

Record World : Type := mkWorld {
  file : option string;
  writable : bool;
  clock : nat -> string;
  tick : nat;
  stdout : list message;
  stderr : list diagnostic
}.

(** A computation returns, or its promise is rejected ([None]). *)
Definition IO (A : Type) : Type := World -> option (A * World).

Definition ret {A : Type} (a : A) : IO A := fun w => Some (a, w).

Definition bind {A B : Type} (m : IO A) (k : A -> IO B) : IO B :=
  fun w => match m w with
           | Some (a, w') => k a w'
           | None => None
           end.

Definition throw {A : Type} : IO A := fun _ => None.

#[global] Instance IO_ret : MRet IO := @ret.
#[global] Instance IO_bind : MBind IO := fun A B k m => bind m k.

Definition console_log (m : message) : IO unit :=
  fun w => Some (tt, mkWorld (file w) (writable w) (clock w) (tick w)
                             (stdout w ++ [m]) (stderr w)).

Definition console_error (e : diagnostic) : IO unit :=
  fun w => Some (tt, mkWorld (file w) (writable w) (clock w) (tick w)
                             (stdout w) (stderr w ++ [e])).

Definition newDate : IO string :=
  fun w => Some (clock w (tick w),
                 mkWorld (file w) (writable w) (clock w) (S (tick w))
                         (stdout w) (stderr w)).

(** [await Bun.write(DATA_FILE, text)]; nothing catches its failure. *)
Definition write (text : string) : IO unit :=
  fun w => if writable w
           then Some (tt, mkWorld (Some text) (writable w) (clock w) (tick w)
                                  (stdout w) (stderr w))
           else None.

(** ** Data operations *)

(** [loadTasks]: [await Bun.file(DATA_FILE).json()] when the file exists;
    a text that is not JSON is caught and reported, and the store starts
    fresh.  As in the later revision no run is modelled from a document
    that is not a [TaskData]. *)
Definition loadTasks : IO TaskData :=
  fun w =>
    match file w with
    | Some content =>
        match JSON.parse content with
        | Some doc =>
            match as_TaskData doc with
            | Some data => Some (data, w)
            | None => None
            end
        | None => (console_error ErrLoading ;; ret freshData) w
        end
    | None => Some (freshData, w)
    end.

Definition saveTasks (data : TaskData) : IO unit :=
  write (JSON.stringify (data_to_json data)).

(** [items.forEach((item, index) => body)] *)
Fixpoint forEach {A : Type} (items : list A) (index : nat)
    (body : A -> nat -> IO unit) : IO unit :=
  match items with
  | [] => ret tt
  | item :: rest => body item index;; forEach rest (S index) body
  end.

(** ** Commands *)

Definition addTask (taskName : string) : IO unit :=
  data ← loadTasks;
  stamp ← newDate;
  let newTask := mkTask (nextId data) taskName false stamp None in
  let data := mkTaskData (tasks data ++ [newTask]) (nextId data + 1) in
  saveTasks data;;
  console_log (MsgTaskAdded taskName).

Definition displayTasks : IO unit :=
  data ← loadTasks;
  let pendingTasks := List.filter (fun task => negb (completed task)) (tasks data) in
  if bool_decide (length pendingTasks = 0%nat) then console_log MsgNoPending
  else
    console_log MsgPendingTop;;
    console_log MsgPendingHeader;;
    console_log MsgPendingSeparator;;
    forEach pendingTasks 0%nat
      (fun task index =>
         console_log (MsgPendingItem (index + 1) (slice_to 33 (padEnd 33 (name task)))));;
    console_log MsgPendingBottom.

Definition markDone (serialNumber : Z) : IO unit :=
  data ← loadTasks;
  let pendingTasks := List.filter (fun task => negb (completed task)) (tasks data) in
  if (serialNumber <? 1) || (serialNumber >? Z.of_nat (length pendingTasks))
  then console_log MsgInvalidTaskNumber
  else
    match pendingTasks !! Z.to_nat (serialNumber - 1) with
    | None => throw (* [taskToComplete.id] of [undefined] *)
    | Some taskToComplete =>
        match findIndex (fun t => Z.eqb (id t) (id taskToComplete)) (tasks data) with
        | None => throw (* [data.tasks[-1].completed] *)
        | Some taskIndex =>
            let data := mkTaskData (alter setCompleted taskIndex (tasks data)) (nextId data) in
            stamp ← newDate;
            let data :=
              mkTaskData (alter (setCompletedAt stamp) taskIndex (tasks data)) (nextId data) in
            saveTasks data;;
            console_log (MsgCompleted (name taskToComplete))
        end
    end.

Definition showArchive : IO unit :=
  data ← loadTasks;
  let completedTasks := List.filter (fun task => completed task) (tasks data) in
  if bool_decide (length completedTasks = 0%nat) then console_log MsgArchiveEmpty
  else
    console_log MsgArchiveTop;;
    console_log MsgArchiveHeader;;
    console_log MsgArchiveSeparator;;
    forEach completedTasks 0%nat
      (fun task index =>
         console_log (MsgArchiveItem (index + 1) (slice_to 43 (padEnd 43 (name task))));;
         console_log (MsgArchiveCompletedAt (completedAt task)));;
    console_log MsgArchiveBottom.

Definition showHelp : IO unit := console_log MsgHelp.

Definition clearAllTasks : IO unit :=
  saveTasks (mkTaskData [] 1);;
  console_log MsgCleared.

(** ** Process command *)

(** [parts] and [command] of a line. *)
Definition parts_of (input : string) : list string := split_space (JS.trim input).

Definition command_of (input : string) : string :=
  JS.toLowerCase (hd EmptyString (parts_of input)).

Definition processCommand (input : string) : IO bool :=
  let parts := parts_of input in
  let command := command_of input in
  if String.eqb command "" then ret true
  else if String.eqb command "exit" || String.eqb command "quit" || String.eqb command "q"
  then console_log MsgGoodbye;; ret false
  else if startsWith "add--" command then
    let taskName := JS.trim (slice 5 command) in
    let taskName :=
      if String.eqb taskName "" && bool_decide (1 < length parts)%nat
      then JS.join " " (tl parts) else taskName in
    if String.eqb taskName "" then
      console_log MsgProvideTaskName;; console_log MsgAddUsage;; ret true
    else addTask taskName;; ret true
  else if startsWith "done--" command then
    let serialStr := JS.trim (slice 6 command) in
    let serialStr :=
      if String.eqb serialStr "" && bool_decide (1 < length parts)%nat
      then default EmptyString (parts !! 1%nat) else serialStr in
    match JS.parseInt serialStr with
    | None => console_log MsgProvideTaskNumber;; console_log MsgDoneUsage;; ret true
    | Some serialNumber => markDone serialNumber;; ret true
    end
  else
    (if String.eqb command "display" then displayTasks
     else if String.eqb command "--archive" || String.eqb command "archive" then showArchive
     else if String.eqb command "--help" || String.eqb command "help" then showHelp
     else if String.eqb command "--clear" || String.eqb command "clear" then clearAllTasks
     else console_log (MsgUnknownCommand command);; console_log MsgTypeHelp);;
    ret true.

(** ** Session driver *)

Fixpoint readLoop (lines : list string) : IO unit :=
  match lines with
  | [] => ret tt
  | line :: rest =>
      shouldContinue ← processCommand line;
      if shouldContinue : bool then console_log MsgPrompt;; readLoop rest else ret tt
  end.

Definition interactiveMode (lines : list string) : IO unit :=
  showHelp;;
  console_log MsgPrompt;;
  readLoop lines.

Definition singleCommandMode (args : list string) : IO unit :=
  processCommand (JS.join " " args);; ret tt.

(** [main]; the program is [main().catch(console.error)], which prints
    the reason when the promise of [main] is rejected. *)
Definition main (args lines : list string) : IO unit :=
  if bool_decide (length args = 0%nat) then interactiveMode lines
  else singleCommandMode args.

(** ** Vocabulary of the statements *)

Definition encode (d : TaskData) : string := JSON.stringify (data_to_json d).

Definition stored (w : World) : option TaskData := fst <$> loadTasks w.

(** The data after [addTask]. *)
Definition appended (d : TaskData) (taskName stamp : string) : TaskData :=
  mkTaskData (tasks d ++ [mkTask (nextId d) taskName false stamp None]) (nextId d + 1).

(** [task.completed = true; task.completedAt = stamp] *)
Definition complete (stamp : string) (t : Task) : Task :=
  setCompletedAt stamp (setCompleted t).

(** The pending view of this revision. *)
Definition pendingb (task : Task) : bool := negb (completed task).

(** A name as the pending list shows it. *)
Definition shown (taskName : string) : string := slice_to 33 (padEnd 33 taskName).

(** What [displayTasks] prints for the data [d]. *)
Definition pending_listing (d : TaskData) : list message :=
  match List.filter pendingb (tasks d) with
  | [] => [MsgNoPending]
  | pendingTasks =>
      [MsgPendingTop; MsgPendingHeader; MsgPendingSeparator]
      ++ imap (fun i task => MsgPendingItem (i + 1) (shown (name task))) pendingTasks
      ++ [MsgPendingBottom]
  end.

(** A piece of a line: it holds no space. *)
Definition no_space (s : string) : bool :=
  all_chars (fun c => negb (Ascii.eqb c " ")) s.

(** A computation that returns [a] after printing exactly [out]. *)
Definition says {A : Type} (m : IO A) (a : A) (out : list message) : Prop :=
  forall w, m w = Some (a, mkWorld (file w) (writable w) (clock w) (tick w)
                                   (stdout w ++ out) (stderr w)).

(** No file yet, and a file that cannot be written. *)
Definition empty_world : World := mkWorld None true sample_clock 0 [] [].

Definition one_task : TaskData :=
  mkTaskData [mkTask 1 "Buy milk" false "2025-01-15T10:00:00.000Z" None] 2.

Definition one_task_world : World :=
  mkWorld (Some (JSON.stringify (data_to_json one_task))) true sample_clock 0 [] [].

Definition read_only_world : World :=
  mkWorld (Some (JSON.stringify (data_to_json one_task))) false sample_clock 0 [] [].

End Legacy.

(** * Properties *)

#[local] Arguments String.append !_ _ / : simpl nomatch.

(** ** The JSON text format: reading back what was written *)

Module JSONFacts.
Import JSON JSONSpec.

Lemma app_assoc (a b c : string) : (a +:+ b) +:+ c = a +:+ (b +:+ c).
Proof. induction a as [|x a IH]; simpl; [done | by f_equal]. Qed.

Lemma length_app (a b : string) :
  String.length (a +:+ b) = (String.length a + String.length b)%nat.
Proof. induction a as [|x a IH]; simpl; [done | by f_equal]. Qed.

Lemma skip_ws_spaces n s : skip_ws (spaces n +:+ s) = skip_ws s.
Proof. induction n as [|n IH]; simpl; [done | exact IH]. Qed.

Lemma skip_ws_nl s : skip_ws (nl +:+ s) = skip_ws s.
Proof. reflexivity. Qed.

Lemma skip_ws_idemp s : skip_ws (skip_ws s) = skip_ws s.
Proof.
  induction s as [|c s IH]; simpl; [done |].
  destruct (is_ws c) eqn:E; [exact IH | simpl; by rewrite E].
Qed.

Lemma parse_chars_quote_char c text t rest :
  parse_chars text = Some (t, rest) ->
  parse_chars (quote_char c +:+ text) = Some (String c t, rest).
Proof.
  intros H. destruct c as [[] [] [] [] [] [] [] []];
    match goal with
    | |- context [quote_char ?c] =>
        let q := eval vm_compute in (quote_char c) in change (quote_char c) with q
    end; simpl; rewrite H; reflexivity.
Qed.

Lemma parse_chars_quote s rest :
  parse_chars (quote_chars s +:+ String dquote rest) = Some (s, rest).
Proof.
  induction s as [|c s IH]; simpl; [done |].
  rewrite app_assoc. by apply parse_chars_quote_char.
Qed.

Lemma closes_no_digit rest : closes rest -> JS.take_digits rest = (Nil, rest).
Proof. destruct rest as [|c r]; [done |]. by intros [-> | ->]. Qed.

Lemma closes_no_fraction rest : closes rest -> starts_fraction rest = false.
Proof. destruct rest as [|c r]; [done |]. by intros [-> | ->]. Qed.

Lemma take_digits_print u rest :
  JS.take_digits rest = (Nil, rest) ->
  JS.take_digits (NilEmpty.string_of_uint u +:+ rest) = (u, rest).
Proof.
  intros H. induction u as [|u IH|u IH|u IH|u IH|u IH|u IH|u IH|u IH|u IH|u IH];
    simpl; [done | by rewrite IH ..].
Qed.

Lemma unorm_to_uint p : unorm (Pos.to_uint p) = Pos.to_uint p.
Proof.
  rewrite <- DecimalPos.Unsigned.to_of, DecimalPos.Unsigned.of_to. reflexivity.
Qed.

Lemma to_uint_no_leading_zero p u : Pos.to_uint p <> D0 u.
Proof.
  intros E. pose proof (unorm_to_uint p) as Hn. rewrite E in Hn.
  rewrite DecimalFacts.unorm_D0 in Hn.
  pose proof (DecimalFacts.nb_digits_unorm u) as Hl.
  destruct u as [|u|u|u|u|u|u|u|u|u|u];
    [ by apply (DecimalPos.Unsigned.to_uint_nonzero p)
    | rewrite Hn in Hl; specialize (Hl ltac:(done)); simpl in Hl; lia .. ].
Qed.

Lemma parse_digits_print p rest :
  closes rest ->
  parse_digits (NilEmpty.string_of_uint (Pos.to_uint p) +:+ rest) = Some (Z.pos p, rest).
Proof.
  intros Hc. unfold parse_digits.
  rewrite take_digits_print by by apply closes_no_digit.
  pose proof (DecimalPos.Unsigned.of_to p) as Hof.
  pose proof (to_uint_no_leading_zero p) as Hz.
  pose proof (DecimalPos.Unsigned.to_uint_nonnil p) as Hnil.
  assert (Hv : Z.of_uint (Pos.to_uint p) = Z.pos p)
    by (unfold Z.of_uint; by rewrite Hof).
  rewrite (closes_no_fraction _ Hc).
  destruct (Pos.to_uint p) as [|u|u|u|u|u|u|u|u|u|u]; try done; try by rewrite Hv.
  by destruct (Hz u).
Qed.

Lemma parse_value_number n fuel rest :
  closes rest ->
  parse_value (S fuel) (print_number n +:+ rest) = Some (Num n, rest).
Proof.
  intros Hc. unfold print_number.
  destruct n as [|p|p]; simpl Z.to_int; unfold NilEmpty.string_of_int.
  - simpl. unfold parse_digits. simpl.
    rewrite (closes_no_digit _ Hc), (closes_no_fraction _ Hc). reflexivity.
  - pose proof (parse_digits_print p rest Hc) as H.
    pose proof (DecimalPos.Unsigned.to_uint_nonnil p) as Hnil.
    destruct (Pos.to_uint p) as [|u|u|u|u|u|u|u|u|u|u]; [done | ..];
      simpl; simpl in H; rewrite H; reflexivity.
  - pose proof (parse_digits_print p rest Hc) as H.
    simpl. rewrite H. reflexivity.
Qed.

Lemma value_nested_ind (P : value -> Prop) :
  P Null -> (forall b, P (Bool b)) -> (forall n, P (Num n)) -> (forall s, P (Str s)) ->
  (forall l, Forall P l -> P (Arr l)) ->
  (forall ms, Forall (fun kv => P (snd kv)) ms -> P (Obj ms)) ->
  forall v, P v.
Proof.
  intros HNull HBool HNum HStr HArr HObj. fix IH 1.
  intros [| b | n | s | l | ms]; [done | done | done | done | |].
  - apply HArr. induction l as [|x l IHl]; constructor; [apply IH | exact IHl].
  - apply HObj. induction ms as [|[k x] ms IHms]; constructor; [apply IH | exact IHms].
Qed.

Lemma print_head v ind rest : head_ok (print ind v +:+ rest).
Proof.
  destruct v as [| [] | n | s | [|x xs] | [|m ms]]; try done.
  unfold print, print_number. destruct n as [|p|p]; simpl Z.to_int; [done | | done].
  pose proof (DecimalPos.Unsigned.to_uint_nonnil p) as Hnil.
  unfold NilEmpty.string_of_int.
  by destruct (Pos.to_uint p) as [|u|u|u|u|u|u|u|u|u|u].
Qed.

Lemma parse_value_S fuel s :
  parse_value (S fuel) s =
  match skip_ws s with
  | EmptyString => None
  | String c r =>
      if Ascii.eqb c dquote then
        '(t, rest) ← parse_chars r; Some (Str t, rest)
      else if Ascii.eqb c "[" then
        match skip_ws r with
        | EmptyString => None
        | String c' r' =>
            if Ascii.eqb c' "]" then Some (Arr [], r')
            else '(l, rest) ← parse_elements fuel (String c' r'); Some (Arr l, rest)
        end
      else if Ascii.eqb c "{" then
        match skip_ws r with
        | EmptyString => None
        | String c' r' =>
            if Ascii.eqb c' "}" then Some (Obj [], r')
            else '(l, rest) ← parse_members fuel (String c' r'); Some (Obj l, rest)
        end
      else if Ascii.eqb c "t" then rest ← expect "rue" r; Some (Bool true, rest)
      else if Ascii.eqb c "f" then rest ← expect "alse" r; Some (Bool false, rest)
      else if Ascii.eqb c "n" then rest ← expect "ull" r; Some (Null, rest)
      else '(n, rest) ← parse_number (String c r); Some (Num n, rest)
  end.
Proof. reflexivity. Qed.

Lemma parse_elements_S fuel s :
  parse_elements (S fuel) s =
  '(v, r) ← parse_value fuel s;
  match skip_ws r with
  | EmptyString => None
  | String c r' =>
      if Ascii.eqb c "," then
        '(vs, rest) ← parse_elements fuel r'; Some (v :: vs, rest)
      else if Ascii.eqb c "]" then Some ([v], r')
      else None
  end.
Proof. reflexivity. Qed.

Lemma parse_members_S fuel s :
  parse_members (S fuel) s =
  match skip_ws s with
  | EmptyString => None
  | String q r =>
      if Ascii.eqb q dquote then
        '(k, r1) ← parse_chars r;
        match skip_ws r1 with
        | EmptyString => None
        | String c r2 =>
            if Ascii.eqb c ":" then
              '(v, r3) ← parse_value fuel r2;
              match skip_ws r3 with
              | EmptyString => None
              | String c' r4 =>
                  if Ascii.eqb c' "," then
                    '(ms, rest) ← parse_members fuel r4; Some ((k, v) :: ms, rest)
                  else if Ascii.eqb c' "}" then Some ([(k, v)], r4)
                  else None
              end
            else None
        end
      else None
  end.
Proof. reflexivity. Qed.

Lemma parse_value_skip fuel s : parse_value fuel (skip_ws s) = parse_value fuel s.
Proof. destruct fuel; [done |]. by rewrite !parse_value_S, skip_ws_idemp. Qed.

Lemma parse_elements_skip fuel s : parse_elements fuel (skip_ws s) = parse_elements fuel s.
Proof. destruct fuel; [done |]. by rewrite !parse_elements_S, parse_value_skip. Qed.

Lemma parse_members_skip fuel s : parse_members fuel (skip_ws s) = parse_members fuel s.
Proof. destruct fuel; [done |]. by rewrite !parse_members_S, skip_ws_idemp. Qed.

(** Unfolding equations of the printer, in the shape the parser meets
    them: a printed piece followed by the rest of the text. *)

Lemma quote_eq s rest : quote s +:+ rest = String dquote (quote_chars s +:+ String dquote rest).
Proof. unfold quote. simpl. by rewrite app_assoc. Qed.

Lemma print_member_eq ind k x rest :
  print_member ind (k, x) +:+ rest
  = quote k +:+ String ":" (String " " (print (ind + 2) x +:+ rest)).
Proof. unfold print_member. by rewrite !app_assoc. Qed.

Lemma print_tail_nil_eq {A} (item : A -> string) ind c rest :
  print_tail item ind (String c EmptyString) [] +:+ rest
  = nl +:+ spaces ind +:+ String c rest.
Proof. simpl. by rewrite !app_assoc. Qed.

Lemma print_tail_cons_eq {A} (item : A -> string) ind close y ys rest :
  print_tail item ind close (y :: ys) +:+ rest
  = String "," (nl +:+ spaces (ind + 2) +:+ item y +:+ print_tail item ind close ys +:+ rest).
Proof. simpl. by rewrite !app_assoc. Qed.

Lemma print_arr_eq ind x xs rest :
  print ind (Arr (x :: xs)) +:+ rest
  = String "[" (nl +:+ spaces (ind + 2) +:+ print (ind + 2) x +:+
                print_tail (print (ind + 2)) ind "]" xs +:+ rest).
Proof. simpl. by rewrite !app_assoc. Qed.

Lemma print_obj_eq ind m ms rest :
  print ind (Obj (m :: ms)) +:+ rest
  = String "{" (nl +:+ spaces (ind + 2) +:+ print_member ind m +:+
                print_tail (print_member ind) ind "}" ms +:+ rest).
Proof.
  change (print ind (Obj (m :: ms)))
    with (String "{" (nl +:+ spaces (ind + 2) +:+ print_member ind m +:+
                      print_tail (print_member ind) ind "}" ms)).
  by repeat (progress (simpl; rewrite ?app_assoc)).
Qed.

Lemma length_print_arr ind x xs :
  (String.length (print (ind + 2) x) +
   String.length (print_tail (print (ind + 2)) ind "]" xs)
   < String.length (print ind (Arr (x :: xs))))%nat.
Proof. simpl. rewrite !length_app. lia. Qed.

Lemma length_print_obj ind m ms :
  (String.length (print_member ind m) +
   String.length (print_tail (print_member ind) ind "}" ms)
   < String.length (print ind (Obj (m :: ms))))%nat.
Proof.
  change (print ind (Obj (m :: ms)))
    with (String "{" (nl +:+ spaces (ind + 2) +:+ print_member ind m +:+
                      print_tail (print_member ind) ind "}" ms)).
  repeat (progress (simpl; rewrite ?length_app)). lia.
Qed.

Lemma length_print_member ind k x :
  (String.length (print (ind + 2) x) < String.length (print_member ind (k, x)))%nat.
Proof. unfold print_member. rewrite !length_app. simpl. lia. Qed.

Lemma length_print_tail_cons {A} (item : A -> string) ind close y ys :
  (String.length (item y) + String.length (print_tail item ind close ys)
   < String.length (print_tail item ind close (y :: ys)))%nat.
Proof. simpl. rewrite !length_app. lia. Qed.

Lemma closes_tail {A} (item : A -> string) ind close l rest :
  closes (print_tail item ind close l +:+ rest).
Proof. destruct l; simpl; auto. Qed.

Lemma length_tail_pos {A} (item : A -> string) ind close (l : list A) :
  (0 < String.length (print_tail item ind close l))%nat.
Proof. destruct l; simpl; lia. Qed.

Lemma print_str_eq ind s : print ind (Str s) = quote s.
Proof. reflexivity. Qed.

Lemma print_num_eq ind n : print ind (Num n) = print_number n.
Proof. reflexivity. Qed.

Opaque print print_tail print_member quote.

Lemma parse_elements_print ind xs :
  Forall reads_back xs -> forall x, reads_back x -> forall fuel rest,
  (String.length (print (ind + 2) x) +
   String.length (print_tail (print (ind + 2)) ind "]" xs) < fuel)%nat ->
  parse_elements fuel
    (print (ind + 2) x +:+ print_tail (print (ind + 2)) ind "]" xs +:+ rest)
  = Some (x :: xs, rest).
Proof.
  induction 1 as [|y ys Hy Hys IH]; intros x Hx fuel rest Hlen;
    (destruct fuel as [|fuel]; [lia |]); rewrite parse_elements_S;
    match type of Hlen with
    | context [print_tail ?f ?i ?c ?l] => pose proof (length_tail_pos f i c l)
    end;
    (rewrite Hx; [| lia | apply closes_tail]).
  - rewrite print_tail_nil_eq. simpl. by rewrite skip_ws_spaces.
  - pose proof (length_print_tail_cons (print (ind + 2)) ind "]" y ys).
    rewrite print_tail_cons_eq. simpl.
    rewrite <- parse_elements_skip. simpl. rewrite skip_ws_spaces, parse_elements_skip.
    rewrite IH; [done | done | lia].
Qed.

Lemma parse_members_print ind ms :
  Forall (fun kv => reads_back (snd kv)) ms ->
  forall m, reads_back (snd m) -> forall fuel rest,
  (String.length (print_member ind m) +
   String.length (print_tail (print_member ind) ind "}" ms) < fuel)%nat ->
  parse_members fuel (print_member ind m +:+ print_tail (print_member ind) ind "}" ms +:+ rest)
  = Some (m :: ms, rest).
Proof.
  induction 1 as [|y ys Hy Hys IH]; intros [k x] Hx fuel rest Hlen;
    cbn [snd] in Hx; pose proof (length_print_member ind k x);
    (destruct fuel as [|fuel]; [lia |]); rewrite parse_members_S;
    match type of Hlen with
    | context [print_tail ?f ?i ?c ?l] => pose proof (length_tail_pos f i c l)
    end;
    rewrite print_member_eq, quote_eq; simpl;
    rewrite parse_chars_quote; simpl;
    rewrite <- parse_value_skip; simpl; rewrite parse_value_skip;
    (rewrite Hx; [| lia | apply closes_tail]).
  - rewrite print_tail_nil_eq. simpl. by rewrite skip_ws_spaces.
  - pose proof (length_print_tail_cons (print_member ind) ind "}" y ys).
    rewrite print_tail_cons_eq. simpl.
    rewrite <- parse_members_skip. simpl. rewrite skip_ws_spaces, parse_members_skip.
    rewrite IH; [done | done | lia].
Qed.

Lemma reads_back_all v : reads_back v.
Proof.
  induction v as [| b | n | s | l IH | ms IH] using value_nested_ind;
    intros ind fuel rest Hlen Hc; (destruct fuel as [|fuel]; [lia |]).
  - rewrite parse_value_S. by vm_compute.
  - rewrite parse_value_S. by destruct b; vm_compute.
  - rewrite print_num_eq. by apply parse_value_number.
  - rewrite parse_value_S, print_str_eq, quote_eq. simpl. by rewrite parse_chars_quote.
  - destruct l as [|x xs]; [by vm_compute |].
    apply Forall_cons_1 in IH as [Hx Hxs].
    pose proof (length_print_arr ind x xs).
    rewrite parse_value_S, print_arr_eq. simpl. rewrite skip_ws_spaces.
    pose proof (print_head x (ind + 2)
                  (print_tail (print (ind + 2)) ind "]" xs +:+ rest)) as Hh.
    pose proof (parse_elements_print ind xs Hxs x Hx fuel rest ltac:(lia)) as Hp.
    destruct (print (ind + 2) x +:+ _) as [|c r]; [done |].
    destruct Hh as (Hw & Hb & _). simpl. rewrite Hw, Hb, Hp. reflexivity.
  - destruct ms as [|[k x] ms]; [by vm_compute |].
    apply Forall_cons_1 in IH as [Hx Hxs].
    pose proof (length_print_obj ind (k, x) ms).
    rewrite parse_value_S, print_obj_eq. simpl. rewrite skip_ws_spaces.
    pose proof (parse_members_print ind ms Hxs (k, x) Hx fuel rest ltac:(lia)) as Hp.
    rewrite print_member_eq, quote_eq in Hp |- *. simpl. rewrite Hp. reflexivity.
Qed.

(** [JSON.parse] reads back what [JSON.stringify] wrote. *)
Lemma parse_stringify v : parse (stringify v) = Some v.
Proof.
  unfold parse, stringify.
  pose proof (reads_back_all v 0%nat (S (String.length (print 0 v))) EmptyString) as H.
  assert (E : print 0 v +:+ EmptyString = print 0 v).
  { generalize (print 0%nat v). intros s. induction s; simpl; congruence. }
  rewrite E in H. rewrite H; [done | lia | done].
Qed.

Transparent print print_tail print_member quote.

End JSONFacts.

(** ** Storage: the document of a [TaskData] and the file *)

Lemma as_Task_to_json t : as_Task (task_to_json t) = Some t.
Proof. by destruct t as [i n c h ca [co|] [hi|]]. Qed.

Lemma as_Tasks_to_json l : mapM as_Task (map task_to_json l) = Some l.
Proof.
  induction l as [|t l IH]; [done |].
  cbn [map mapM]. rewrite as_Task_to_json. cbn. rewrite IH. reflexivity.
Qed.

Lemma as_TaskData_to_json d : as_TaskData (data_to_json d) = Some d.
Proof.
  destruct d as [l n]. unfold as_TaskData, data_to_json. cbn [tasks nextId].
  change (member "tasks" _) with (Some (JSON.Arr (map task_to_json l))).
  change (member "nextId" _) with (Some (JSON.Num n)).
  cbn. rewrite as_Tasks_to_json. reflexivity.
Qed.

(** Stepping through straight-line [IO] code. *)
Ltac io_run :=
  unfold mbind, IO_bind, bind, mret, IO_ret, ret, console_log, console_error,
    throw, newDate, existsSync, writeFileSync;
  cbn [fst snd file writable clock tick stdout stderr].

Ltac io_run_in H :=
  unfold mbind, IO_bind, bind, mret, IO_ret, ret, console_log, console_error,
    throw, newDate, existsSync, writeFileSync in H;
  cbn [fst snd file writable clock tick stdout stderr] in H.

Lemma say_nil w : say [] [] w = w.
Proof. destruct w. unfold say. cbn. by rewrite !app_nil_r. Qed.

Lemma loadTasks_stored w d :
  stored w = Some d -> exists err, loadTasks w = Some (d, say [] err w).
Proof.
  unfold stored, loadTasks. intros H.
  destruct (file w) as [content|] eqn:Ef.
  - destruct (JSON.parse content) as [doc|].
    + destruct (as_TaskData doc) as [d'|]; [| done].
      injection H as ->. exists []. by rewrite say_nil.
    + io_run_in H. injection H as <-. exists [ErrLoading]. io_run. unfold say.
      by rewrite app_nil_r.
  - injection H as <-. exists []. by rewrite say_nil.
Qed.

Lemma stored_file w w' : file w' = file w -> stored w' = stored w.
Proof.
  unfold stored, loadTasks. intros ->.
  destruct (file w) as [content|]; [| done].
  destruct (JSON.parse content) as [doc|]; [| done].
  by destruct (as_TaskData doc).
Qed.

Lemma stored_encode w d : file w = Some (encode d) -> stored w = Some d.
Proof.
  unfold stored, loadTasks, encode. intros ->.
  by rewrite JSONFacts.parse_stringify, as_TaskData_to_json.
Qed.

Lemma stored_absent w : file w = None -> stored w = Some freshData.
Proof. unfold stored, loadTasks. by intros ->. Qed.

(** ** Lists: filtered views and updates by identifier *)

Section Lists.
Context {A : Type}.






End Lists.





(** ** What a command run does to the world *)


Lemma reports_stored w out w' : reports w out w' -> stored w' = stored w.
Proof. intros (Hf & _). by apply stored_file. Qed.

Lemma reports_refl w : reports w [] w.
Proof. unfold reports. by rewrite app_nil_r. Qed.

Lemma reports_trans w1 w2 w3 out1 out2 :
  reports w1 out1 w2 -> reports w2 out2 w3 -> reports w1 (out1 ++ out2) w3.
Proof.
  unfold reports. intros (?&?&?&?&?) (?&?&?&?&?).
  repeat split; try congruence. rewrite app_assoc. congruence.
Qed.

Lemma saveTasks_run d w :
  saveTasks d w =
  Some (tt, if writable w
            then mkWorld (Some (encode d)) (writable w) (clock w) (tick w)
                         (stdout w) (stderr w)
            else say [] [ErrSaving] w).
Proof.
  unfold saveTasks. io_run. destruct (writable w); [done |].
  unfold say. by rewrite app_nil_r.
Qed.

Lemma addTask_run taskName w d :
  stored w = Some d ->
  let d' := appended d taskName (clock w (tick w)) in
  exists w', addTask taskName w = Some (tt, w') /\
    commits w d' 1
      [MsgTaskAdded taskName; MsgSerialNumber (length (getPendingTasks d'))] w'.
Proof.
  intros H d'. destruct (loadTasks_stored _ _ H) as [err Hl].
  unfold addTask. unfold mbind at 1, IO_bind, bind. rewrite Hl.
  unfold mbind at 1, IO_bind, bind. unfold newDate at 1. cbn [say tick clock].
  unfold mbind at 1, IO_bind, bind. rewrite saveTasks_run. cbn [writable].
  fold d'. destruct (writable w) eqn:Hw; io_run;
    (eexists; split; [reflexivity |]); unfold commits, say;
    cbn [file writable clock tick stdout stderr]; rewrite Hw;
    cbn [file writable clock tick stdout stderr];
    repeat split; try done; try lia; by rewrite ?app_nil_r, <- ?app_assoc.
Qed.









Ltac world_facts :=
  unfold commits, reports, say;
  cbn [file writable clock tick stdout stderr];
  repeat match goal with H : writable _ = _ |- _ => rewrite H end;
  cbn [file writable clock tick stdout stderr];
  repeat split; try done; try lia;
  rewrite ?app_nil_r, <- ?app_assoc; try done.

Ltac load_stored H :=
  let err := fresh "err" in
  let Hl := fresh "Hl" in
  destruct (loadTasks_stored _ _ H) as [err Hl];
  unfold mbind at 1, IO_bind at 1, bind at 1; rewrite Hl.

Lemma out_of_range_test (n : Z) (len : nat) :
  (n <? 1) || (n >? Z.of_nat len) = false <-> 1 <= n <= Z.of_nat len.
Proof. rewrite orb_false_iff, Z.ltb_ge, Z.gtb_ltb, Z.ltb_ge. lia. Qed.

Lemma markDone_invalid n w d :
  stored w = Some d ->
  ~ (1 <= n <= Z.of_nat (length (getPendingTasks d))) ->
  exists w', markDone n w = Some (tt, w') /\ reports w [MsgInvalidTaskNumber] w'.
Proof.
  intros H Hn. unfold markDone. load_stored H.
  destruct (_ || _) eqn:E; [| by apply out_of_range_test in E].
  io_run. eexists. split; [reflexivity |]. world_facts.
Qed.


Lemma parseInt_not_word a n :
  JS.parseInt a = Some n -> String.eqb a "all" = false /\ String.eqb a "archive" = false.
Proof.
  intros H. split; apply String.eqb_neq; intros ->; discriminate H.
Qed.


Lemma deleteTask_invalid input w d n :
  stored w = Some d ->
  JS.parseInt (JS.trim (JS.toLowerCase input)) = Some n ->
  ~ (1 <= n <= Z.of_nat (length (getPendingTasks d))) ->
  exists w', deleteTask input w = Some (tt, w') /\ reports w [MsgInvalidTaskNumber] w'.
Proof.
  intros H Hp Hn. unfold deleteTask. load_stored H.
  destruct (parseInt_not_word _ _ Hp) as [-> ->]. rewrite Hp.
  destruct (_ || _) eqn:E; [| by apply out_of_range_test in E].
  io_run. eexists. split; [reflexivity |]. world_facts.
Qed.




Lemma prints_ret {A} (a : A) : prints (ret a).
Proof. intros w. exists a, [], w. split; [done | apply reports_refl]. Qed.

Lemma prints_log m : prints (console_log m).
Proof. intros w. eexists tt, [m], _. split; [reflexivity |]. world_facts. Qed.

Lemma prints_existsSync : prints existsSync.
Proof. intros w. eexists _, [], w. split; [reflexivity | apply reports_refl]. Qed.

Lemma prints_bind {A B} (m : IO A) (k : A -> IO B) :
  prints m -> (forall a, prints (k a)) -> prints (m ≫= k).
Proof.
  intros Hm Hk w. destruct (Hm w) as (a & out1 & w1 & E1 & R1).
  destruct (Hk a w1) as (b & out2 & w2 & E2 & R2).
  exists b, (out1 ++ out2), w2. split; [| by eapply reports_trans].
  unfold mbind, IO_bind, bind. by rewrite E1.
Qed.

Lemma prints_forEach {A St} (items : list A) (body : A -> nat -> St -> IO St) :
  (forall item index s, prints (body item index s)) ->
  forall index s, prints (forEach items index body s).
Proof.
  intros Hb. induction items as [|item rest IH]; intros index s; cbn [forEach].
  - apply prints_ret.
  - apply prints_bind; [apply Hb | intros s'; apply IH].
Qed.

Ltac prints_tac :=
  repeat first
    [ apply prints_ret | apply prints_log | apply prints_existsSync
    | apply prints_bind; [| intros ?]
    | apply prints_forEach; intros ? ? ?; cbv beta
    | match goal with |- prints (if ?c then _ else _) => destruct c end ].

Lemma prints_showHelp : prints showHelp.
Proof. unfold showHelp. prints_tac. Qed.

Lemma prints_showLocation : prints showLocation.
Proof. unfold showLocation. prints_tac. Qed.

(** After a successful load, a computation that only prints. *)
Lemma load_then_prints {A} (k : TaskData -> IO A) w d :
  stored w = Some d -> (forall data, prints (k data)) ->
  exists a out w', (loadTasks ≫= k) w = Some (a, w') /\ reports w out w'.
Proof.
  intros H Hk. load_stored H.
  destruct (Hk d (say [] err w)) as (a & out & w' & E & R).
  exists a, out, w'. split; [done |].
  replace out with ([] ++ out) by done. eapply reports_trans; [| exact R].
  world_facts.
Qed.

Lemma displayTasks_run w d :
  stored w = Some d -> exists a out w', displayTasks w = Some (a, w') /\ reports w out w'.
Proof.
  intros H. apply load_then_prints with d; [done |]. intros data. cbv zeta. prints_tac.
Qed.

Lemma showArchive_run w d :
  stored w = Some d -> exists a out w', showArchive w = Some (a, w') /\ reports w out w'.
Proof.
  intros H. apply load_then_prints with d; [done |]. intros data. cbv zeta. prints_tac.
Qed.

(** ** Lines and the commands they reach *)

Lemma processCommand_switch line w :
  reaches_switch line ->
  processCommand line w =
  (dispatch (command_of (JS.trim line)) (args_of (JS.trim line));; ret true) w.
Proof.
  intros (Ht & He & Hq & Hq'). unfold processCommand.
  apply String.eqb_neq in Ht, He, Hq, Hq'. by rewrite Ht, He, Hq, Hq'.
Qed.

Lemma processCommand_run line w w' :
  reaches_switch line ->
  dispatch (command_of (JS.trim line)) (args_of (JS.trim line)) w = Some (tt, w') ->
  processCommand line w = Some (true, w').
Proof.
  intros Hr Hd. rewrite processCommand_switch by done.
  unfold mbind, IO_bind, bind. by rewrite Hd.
Qed.

Lemma reaches_switch_command line word :
  JS.trim line <> "" -> command_of (JS.trim line) = word ->
  word <> "exit" -> word <> "quit" -> word <> "q" -> reaches_switch line.
Proof. intros Ht <- ? ? ?. by repeat split. Qed.

(** Deciding the branch of [dispatch] for a known command word. *)
Ltac switch_on H := rewrite H; cbn [String.eqb Ascii.eqb Bool.eqb andb orb].

(** ** Specified properties *)

(** *** Views *)

Lemma filter_subsequence_where {A} (p : A -> bool) (P : A -> Prop) (l s : list A) :
  (forall x, p x = true <-> P x) ->
  subsequence_where P l s <-> s = List.filter p l.
Proof.
  intros HpP. split.
  - induction 1 as [|x l s Hx _ IH|x l s Hx _ IH]; cbn [List.filter]; [done | |].
    + apply HpP in Hx. by rewrite Hx, IH.
    + destruct (p x) eqn:E; [by apply HpP in E | done].
  - intros ->. induction l as [|x l IH]; cbn [List.filter]; [constructor |].
    destruct (p x) eqn:E.
    + apply sw_keep; [by apply HpP | done].
    + apply sw_drop; [| done]. intros Hx. apply HpP in Hx. congruence.
Qed.

Lemma pendingb_spec t : pendingb t = true <-> is_pending t.
Proof. unfold pendingb, is_pending. destruct (completed t), (hidden t); cbn; intuition congruence. Qed.

Lemma archivedb_spec t : archivedb t = true <-> is_archived t.
Proof. unfold archivedb, is_archived. destruct (completed t), (hidden t); cbn; intuition congruence. Qed.

(** C1: the pending view is exactly the subsequence of [data.tasks] of the
    tasks that are neither completed nor hidden, the archived view exactly
    the subsequence of the tasks that are completed and not hidden, both in
    the order of [data.tasks]; a hidden task is in neither view. *)
Theorem views_are_the_filtered_subsequences (data : TaskData) :
  (forall s, subsequence_where is_pending (tasks data) s <-> s = getPendingTasks data) /\
  (forall s, subsequence_where is_archived (tasks data) s <-> s = getArchivedTasks data) /\
  (forall t, hidden t = true ->
             ~ In t (getPendingTasks data) /\ ~ In t (getArchivedTasks data)).
Proof.
  split; [| split].
  - intros s. apply filter_subsequence_where, pendingb_spec.
  - intros s. apply filter_subsequence_where, archivedb_spec.
  - intros t Ht. unfold getPendingTasks, getArchivedTasks.
    rewrite !List.filter_In, Ht. cbn. rewrite !andb_false_r. intuition congruence.
Qed.

(** *** Rejected [done] arguments *)


Lemma dispatch_done_number args n w :
  JS.parseInt args = Some n -> dispatch "done" args w = markDone n w.
Proof.
  intros H. unfold dispatch. cbn [String.eqb Ascii.eqb Bool.eqb andb orb]. by rewrite H.
Qed.


(** *** Deleting one pending task *)

Lemma dispatch_delete args w :
  args <> "" -> dispatch "delete" args w = deleteTask args w.
Proof.
  intros H. unfold dispatch. cbn [String.eqb Ascii.eqb Bool.eqb andb orb].
  apply String.eqb_neq in H. by rewrite H.
Qed.

Lemma delete_argument_given args :
  JS.trim (JS.toLowerCase args) <> "" -> args <> "".
Proof. by intros H ->. Qed.



(** *** Bulk deletion *)




(** *** Round trip through the file *)

(** C7: after [saveTasks data] has written the file, [loadTasks] returns
    [data] itself: every field of every task, the order of the tasks and
    [nextId]. *)
Theorem save_then_load (data : TaskData) (w : World) :
  writable w = true ->
  exists w1, saveTasks data w = Some (tt, w1) /\ loadTasks w1 = Some (data, w1).
Proof.
  intros Hw. rewrite saveTasks_run, Hw. eexists. split; [reflexivity |].
  unfold loadTasks. cbn [file]. unfold encode.
  by rewrite JSONFacts.parse_stringify, as_TaskData_to_json.
Qed.

(** When the file cannot be written, [saveTasks] reports it and leaves
    the file as it was. *)
Lemma save_failure_keeps_file (data : TaskData) (w : World) :
  writable w = false ->
  exists w1, saveTasks data w = Some (tt, w1) /\
             file w1 = file w /\ stderr w1 = stderr w ++ [ErrSaving].
Proof. intros Hw. rewrite saveTasks_run, Hw. by eexists. Qed.

(** *** Words that are not commands *)

Lemma dispatch_unknown command args w :
  ~ In command ["add"; "done"; "delete"; "display"; "list"; "show";
                "archive"; "help"; "location"] ->
  exists w', dispatch command args w = Some (tt, w') /\
             reports w [MsgUnknownCommand command; MsgTypeHelp] w'.
Proof.
  intros H. unfold dispatch.
  repeat match goal with
  | |- context [String.eqb command ?word] =>
      destruct (String.eqb_spec command word) as [-> | _];
      [exfalso; apply H; cbn; tauto |]
  end.
  cbn [orb]. io_run. eexists. split; [reflexivity |]. world_facts.
Qed.

(** C8, as the code has it: [clear] is not in the vocabulary.  A line
    whose first word is [clear], in any case, is answered with the
    unknown-command message and the hint to type [help]; the storage and
    the clock are untouched and the session goes on. *)
Theorem clear_is_an_unknown_command (line : string) (w : World) :
  JS.trim line <> "" -> command_of (JS.trim line) = "clear" ->
  exists w', processCommand line w = Some (true, w') /\
             reports w [MsgUnknownCommand "clear"; MsgTypeHelp] w'.
Proof.
  intros Ht Hc.
  destruct (dispatch_unknown "clear" (args_of (JS.trim line)) w) as (w' & E & R).
  { cbn. intros H. repeat destruct H as [H | H]; try discriminate H. done. }
  exists w'. split; [| done].
  apply processCommand_run; [by apply reaches_switch_command with "clear" |].
  by rewrite Hc.
Qed.

(** *** Commands that only read *)

(** C9: [display] (or [list], [show]), [archive], [help] and [location]
    print and do nothing else: the file, and the [TaskData] stored in it,
    are what they were. *)
Theorem read_only_commands_keep_storage (line : string) (w : World) (d : TaskData) :
  stored w = Some d -> JS.trim line <> "" ->
  In (command_of (JS.trim line))
     ["display"; "list"; "show"; "archive"; "help"; "location"] ->
  exists w' out,
    processCommand line w = Some (true, w') /\ reports w out w' /\
    file w' = file w /\ stored w' = Some d.
Proof.
  intros H Ht Hc.
  assert (exists (a : unit) out w',
            dispatch (command_of (JS.trim line)) (args_of (JS.trim line)) w
            = Some (a, w') /\ reports w out w') as ([] & out & w' & E & R).
  { cbn in Hc. unfold dispatch.
    destruct Hc as [<- | [<- | [<- | [<- | [<- | [<- | []]]]]]];
      cbn [String.eqb Ascii.eqb Bool.eqb andb orb].
    - by apply displayTasks_run with d.
    - by apply displayTasks_run with d.
    - by apply displayTasks_run with d.
    - by apply showArchive_run with d.
    - apply prints_showHelp.
    - apply prints_showLocation. }
  exists w', out. repeat split; try apply R.
  - apply processCommand_run; [| done]. cbn in Hc.
    repeat split; try done;
      destruct Hc as [<- | [<- | [<- | [<- | [<- | [<- | []]]]]]]; discriminate.
  - rewrite <- H. by eapply reports_stored.
Qed.

(** *** The storage invariant *)











(** *** The argument string *)

Lemma split_ws_not_nil s : JS.split_ws s <> [].
Proof.
  induction s as [|c r IH]; [done |]. cbn [JS.split_ws].
  destruct (JS.is_space c).
  - destruct r as [|c' r']; [done |]. by destruct (JS.is_space c').
  - by destruct (JS.split_ws r).
Qed.

Lemma join_cons_char c t ts :
  JS.join " " (String c t :: ts) = String c (JS.join " " (t :: ts)).
Proof. by destruct ts. Qed.


Lemma split_ws_word cmd rest :
  all_chars (fun c => negb (JS.is_space c)) cmd = true ->
  JS.split_ws (cmd +:+ rest) =
  match JS.split_ws rest with
  | t :: ts => (cmd +:+ t) :: ts
  | [] => [cmd]
  end.
Proof.
  induction cmd as [|c cmd IH]; cbn [all_chars String.append]; intros H.
  - pose proof (split_ws_not_nil rest). by destruct (JS.split_ws rest).
  - apply andb_prop in H as [Hc H]. apply negb_true_iff in Hc.
    cbn [JS.split_ws]. rewrite Hc, (IH H).
    pose proof (split_ws_not_nil rest). by destruct (JS.split_ws rest).
Qed.

Lemma split_ws_blank sep raw :
  is_blank sep -> starts_with_text raw ->
  JS.split_ws (sep +:+ raw) = EmptyString :: JS.split_ws raw.
Proof.
  intros [Hne H] Hraw. induction sep as [|c sep IH]; [done |].
  cbn [all_chars] in H. apply andb_prop in H as [Hc H].
  cbn [String.append JS.split_ws]. rewrite Hc.
  destruct sep as [|c' sep'].
  - cbn [String.append]. destruct raw as [|x raw']; [done |].
    cbn in Hraw. by rewrite Hraw.
  - cbn [String.append]. cbn [all_chars] in H. apply andb_prop in H as [Hc' H].
    rewrite Hc'. apply IH; [done |]. cbn [all_chars]. by rewrite Hc', H.
Qed.

Lemma append_empty_r s : s +:+ "" = s.
Proof. induction s; cbn; congruence. Qed.

Lemma tokens_of_line cmd sep raw :
  is_word cmd -> is_blank sep -> starts_with_text raw ->
  JS.split_ws (cmd +:+ sep +:+ raw) = cmd :: JS.split_ws raw.
Proof.
  intros [_ Hcmd] Hsep Hraw.
  by rewrite split_ws_word, split_ws_blank, append_empty_r.
Qed.




Lemma dispatch_add args w : args <> "" -> dispatch "add" args w = addTask args w.
Proof.
  intros H. unfold dispatch. cbn [String.eqb Ascii.eqb Bool.eqb andb orb].
  apply String.eqb_neq in H. by rewrite H.
Qed.

Lemma tokens_of_word cmd : is_word cmd -> JS.split_ws cmd = [cmd].
Proof.
  intros [_ Hcmd]. rewrite <- (append_empty_r cmd) at 1.
  rewrite split_ws_word by done. cbn. by rewrite append_empty_r.
Qed.


(** *** Sequences of [add] *)

Lemma pending_appended d taskName stamp :
  getPendingTasks (appended d taskName stamp) =
  getPendingTasks d ++ [mkTask (nextId d) taskName false false stamp None None].
Proof. unfold getPendingTasks, appended. cbn [tasks]. by rewrite List.filter_app. Qed.

Lemma add_line_run line w d :
  is_add_line line -> stored w = Some d ->
  exists w', processCommand line w = Some (true, w') /\
    commits w (appended d (task_name line) (clock w (tick w))) 1
      [MsgTaskAdded (task_name line);
       MsgSerialNumber (length (getPendingTasks d) + 1)] w'.
Proof.
  intros (Ht & Hc & Ha) H.
  destruct (addTask_run (task_name line) w d H) as (w' & E & C).
  exists w'. split.
  - apply processCommand_run; [by apply reaches_switch_command with "add" |].
    by rewrite Hc, dispatch_add.
  - by rewrite pending_appended, length_app in C.
Qed.






(** ** The properties on sample stores *)







Lemma save_then_load_witness :
  writable empty_world = true /\
  exists w1, saveTasks one_task empty_world = Some (tt, w1) /\
             loadTasks w1 = Some (one_task, w1).
Proof.
  assert (H : writable empty_world = true) by reflexivity.
  split; [done |]. by apply save_then_load.
Defined.

Lemma clear_is_an_unknown_command_witness :
  JS.trim "  CLEAR all " <> "" /\ command_of (JS.trim "  CLEAR all ") = "clear" /\
  exists w', processCommand "  CLEAR all " one_task_world = Some (true, w') /\
             reports one_task_world [MsgUnknownCommand "clear"; MsgTypeHelp] w'.
Proof.
  assert (H1 : JS.trim "  CLEAR all " <> "") by (vm_compute; congruence).
  assert (H2 : command_of (JS.trim "  CLEAR all ") = "clear") by reflexivity.
  split_and!; try done. by apply clear_is_an_unknown_command.
Defined.

(** C8 as stated fails: [clear] reaches no operation on the tasks; it is
    answered as an unknown command and the file stays as it was. *)
Lemma clear_is_reported_unknown :
  exists w',
    processCommand "clear" one_task_world = Some (true, w') /\
    stdout w' = [MsgUnknownCommand "clear"; MsgTypeHelp] /\
    file w' = file one_task_world /\ stored w' = Some one_task.
Proof.
  eexists. split; [vm_compute; reflexivity |]. split_and!; reflexivity.
Qed.

Lemma read_only_commands_keep_storage_witness :
  stored one_task_world = Some one_task /\ JS.trim "display" <> "" /\
  In (command_of (JS.trim "display"))
     ["display"; "list"; "show"; "archive"; "help"; "location"] /\
  exists w' out,
    processCommand "display" one_task_world = Some (true, w') /\
    reports one_task_world out w' /\
    file w' = file one_task_world /\ stored w' = Some one_task.
Proof.
  assert (H1 : stored one_task_world = Some one_task) by (vm_compute; reflexivity).
  assert (H2 : JS.trim "display" <> "") by (vm_compute; congruence).
  assert (H3 : In (command_of (JS.trim "display"))
                  ["display"; "list"; "show"; "archive"; "help"; "location"])
    by (left; reflexivity).
  split_and!; try done. by apply read_only_commands_keep_storage.
Defined.



(** The scenario of the specification, run on the model: two tasks added,
    the first completed, the second deleted, the archive deleted; both
    records are still stored, hidden. *)
Example specification_scenario :
  exists w',
    readLoop ["add Buy milk"; "add Pay rent"; "done 1"; "delete 1"; "delete archive"]
             empty_world = Some (tt, w') /\
    stdout w' = [MsgTaskAdded "Buy milk"; MsgSerialNumber 1; MsgPrompt;
                 MsgTaskAdded "Pay rent"; MsgSerialNumber 2; MsgPrompt;
                 MsgCompleted "Buy milk"; MsgPrompt;
                 MsgDeleted "Pay rent"; MsgPrompt;
                 MsgDeletedArchived 1; MsgPrompt] /\
    (map (fun t => (name t, completed t, hidden t)) <$> (tasks <$> stored w'))
    = Some [("Buy milk", true, true); ("Pay rent", false, true)] /\
    (getPendingTasks <$> stored w') = Some [] /\
    (getArchivedTasks <$> stored w') = Some [].
Proof.
  eexists. split; [vm_compute; reflexivity |]. split_and!; vm_compute; reflexivity.
Qed.

(** * Further properties of the commands and of whole sessions *)

(** ** Lines that never reach the storage *)

Lemma trimStart_blank s : all_chars JS.is_space s = true -> JS.trimStart s = "".
Proof.
  induction s as [|c r IH]; [done |]. cbn [all_chars JS.trimStart].
  intros H. apply andb_prop in H as [-> H]. by apply IH.
Qed.

Lemma trimEnd_blank s : all_chars JS.is_space s = true -> JS.trimEnd s = "".
Proof.
  induction s as [|c r IH]; [done |]. cbn [all_chars JS.trimEnd].
  intros H. apply andb_prop in H as [Hc H]. by rewrite (IH H), Hc.
Qed.

Lemma trimEnd_empty s : JS.trimEnd s = "" -> all_chars JS.is_space s = true.
Proof.
  induction s as [|c r IH]; [done |]. cbn [all_chars JS.trimEnd].
  destruct (JS.trimEnd r) as [|x r'] eqn:E; [| done].
  destruct (JS.is_space c); [| done]. intros _. by rewrite IH.
Qed.

Lemma trimStart_suffix s : exists blank, s = blank +:+ JS.trimStart s /\
                                         all_chars JS.is_space blank = true.
Proof.
  induction s as [|c r (blank & E & Hb)]; [by exists "" |].
  cbn [JS.trimStart]. destruct (JS.is_space c) eqn:Ec.
  - exists (String c blank). cbn. by rewrite Ec, Hb, <- E.
  - by exists "".
Qed.

Lemma all_chars_app p a b :
  all_chars p (a +:+ b) = all_chars p a && all_chars p b.
Proof. induction a as [|c a IH]; cbn; [done |]. by rewrite IH, andb_assoc. Qed.

Lemma trim_empty_iff line : JS.trim line = "" <-> all_chars JS.is_space line = true.
Proof.
  unfold JS.trim. split.
  - intros H. apply trimEnd_empty in H.
    destruct (trimStart_suffix line) as (blank & E & Hb).
    rewrite E, all_chars_app, Hb. exact H.
  - intros H. by rewrite (trimStart_blank _ H).
Qed.

(** X1: a line of white space only, the empty line included, is ignored:
    the session goes on and nothing is read, written or printed. *)
Theorem blank_line_is_ignored (line : string) (w : World) :
  all_chars JS.is_space line = true -> processCommand line w = Some (true, w).
Proof.
  intros H. apply trim_empty_iff in H. unfold processCommand. by rewrite H.
Qed.

Lemma exit_line_run line w :
  is_exit_line line ->
  processCommand line w =
  Some (false, mkWorld (file w) (writable w) (clock w) (tick w)
                       (stdout w ++ [MsgGoodbye]) (stderr w)).
Proof.
  intros [Ht Hc]. unfold processCommand.
  apply String.eqb_neq in Ht. rewrite Ht.
  assert (E : String.eqb (command_of (JS.trim line)) "exit"
              || String.eqb (command_of (JS.trim line)) "quit"
              || String.eqb (command_of (JS.trim line)) "q" = true).
  { cbn in Hc. destruct Hc as [<- | [<- | [<- | []]]]; reflexivity. }
  rewrite E. by io_run.
Qed.

Lemma processCommand_false line w w' :
  processCommand line w = Some (false, w') -> is_exit_line line.
Proof.
  unfold processCommand. destruct (String.eqb_spec (JS.trim line) ""); [done |].
  destruct (String.eqb_spec (command_of (JS.trim line)) "exit") as [E1 | _].
  { intros _. split; [done |]. rewrite E1. cbn. tauto. }
  destruct (String.eqb_spec (command_of (JS.trim line)) "quit") as [E2 | _].
  { intros _. split; [done |]. rewrite E2. cbn. tauto. }
  destruct (String.eqb_spec (command_of (JS.trim line)) "q") as [E3 | _].
  { intros _. split; [done |]. rewrite E3. cbn. tauto. }
  cbn [orb]. unfold mbind, IO_bind, bind.
  destruct (dispatch _ _ w) as [[[] w1]|]; [| done]. io_run. done.
Qed.

(** X2: on a line of ASCII characters, [exit], [quit] and [q], in any
    letter case and whatever follows them, print the goodbye line and stop
    the session without reading or writing the file; and no other such
    line stops the session. *)
Theorem only_exit_words_stop_the_session (line : string) (w : World) :
  ascii_only line = true ->
  (is_exit_line line ->
   exists w', processCommand line w = Some (false, w') /\ reports w [MsgGoodbye] w') /\
  (forall w', processCommand line w = Some (false, w') -> is_exit_line line).
Proof.
  intros _. split.
  - intros H. rewrite (exit_line_run _ _ H). eexists. split; [reflexivity |].
    world_facts.
  - apply processCommand_false.
Qed.

Lemma readLoop_cons line rest w :
  readLoop (line :: rest) w =
  match processCommand line w with
  | Some (true, w1) =>
      readLoop rest (mkWorld (file w1) (writable w1) (clock w1) (tick w1)
                             (stdout w1 ++ [MsgPrompt]) (stderr w1))
  | Some (false, w1) => Some (tt, w1)
  | None => None
  end.
Proof.
  cbn [readLoop]. unfold mbind at 1, IO_bind at 1, bind at 1.
  by destruct (processCommand line w) as [[[] w1]|].
Qed.

(** X3: the lines that follow an exit line are never run: a session on
    [pre ++ line :: post] is the session on [pre ++ [line]]. *)
Theorem lines_after_exit_are_not_run (pre post : list string) (line : string) (w : World) :
  is_exit_line line ->
  readLoop (pre ++ line :: post) w = readLoop (pre ++ [line]) w.
Proof.
  intros H. revert w. induction pre as [|l pre IH]; intros w; cbn [app];
    rewrite !readLoop_cons.
  - by rewrite (exit_line_run _ _ H).
  - destruct (processCommand l w) as [[[] w1]|]; [apply IH | done | done].
Qed.

(** ** Unknown words and missing arguments *)

Lemma reaches_switch_outside line :
  JS.trim line <> "" -> ~ In (command_of (JS.trim line)) ["exit"; "quit"; "q"] ->
  reaches_switch line.
Proof.
  intros Ht Hc. split_and!; try done; intros E; apply Hc; rewrite E; cbn; tauto.
Qed.

(** X4: a line of ASCII characters whose first word, in lower case, is
    not in the vocabulary is answered with that word and the hint to type
    [help]; the session goes on, and the file is neither read nor
    written. *)
Theorem unknown_words_are_reported (line : string) (w : World) :
  ascii_only line = true ->
  JS.trim line <> "" -> ~ In (command_of (JS.trim line)) vocabulary ->
  exists w', processCommand line w = Some (true, w') /\
             reports w [MsgUnknownCommand (command_of (JS.trim line)); MsgTypeHelp] w'.
Proof.
  intros _ Ht Hc.
  destruct (dispatch_unknown (command_of (JS.trim line)) (args_of (JS.trim line)) w)
    as (w' & E & R).
  { intros H. apply Hc. unfold vocabulary. cbn in H |- *. tauto. }
  exists w'. split; [| done]. apply processCommand_run; [| done].
  apply reaches_switch_outside; [done |]. intros H. apply Hc.
  unfold vocabulary. cbn in H |- *. tauto.
Qed.

Lemma word_not_empty s : is_word s -> s <> "".
Proof. by intros [H _]. Qed.

Lemma one_word_line line :
  is_word (JS.trim line) ->
  command_of (JS.trim line) = JS.toLowerCase (JS.trim line) /\
  args_of (JS.trim line) = "".
Proof.
  intros H. pose proof (tokens_of_word _ H) as Htok.
  unfold command_of, args_of. by rewrite Htok.
Qed.

(** X5: [add] alone and [delete] alone, in any letter case, print their
    two usage lines and do nothing else: no task is created or hidden and
    the file is neither read nor written. *)
Theorem missing_argument_is_reported (line : string) (w : World) :
  is_word (JS.trim line) ->
  (JS.toLowerCase (JS.trim line) = "add" ->
   exists w', processCommand line w = Some (true, w') /\
              reports w [MsgProvideTaskName; MsgAddUsage] w') /\
  (JS.toLowerCase (JS.trim line) = "delete" ->
   exists w', processCommand line w = Some (true, w') /\
              reports w [MsgProvideDeleteTarget; MsgDeleteUsage] w').
Proof.
  intros Hword. destruct (one_word_line _ Hword) as [Hc Ha].
  pose proof (word_not_empty _ Hword) as Ht.
  split; intros Hcmd; rewrite Hcmd in Hc.
  - eexists. split.
    + apply processCommand_run; [by apply reaches_switch_command with "add" |].
      rewrite Hc, Ha. unfold dispatch. cbn [String.eqb Ascii.eqb Bool.eqb andb orb].
      io_run. reflexivity.
    + world_facts.
  - eexists. split.
    + apply processCommand_run; [by apply reaches_switch_command with "delete" |].
      rewrite Hc, Ha. unfold dispatch. cbn [String.eqb Ascii.eqb Bool.eqb andb orb].
      io_run. reflexivity.
    + world_facts.
Qed.

(** ** Rejected [delete] targets *)


(** ** Completing a task, and the serial numbers after a change *)





Lemma pendingb_complete stamp t : pendingb (complete stamp t) = false.
Proof. done. Qed.







(** ** What the listings show *)


Lemma says_log m : says (console_log m) tt [m].
Proof. intros w. eexists. split; [reflexivity |]. split; [world_facts | done]. Qed.











(** ** The file: missing, unreadable, not writable *)

Lemma loadTasks_unreadable w content :
  file w = Some content -> JSON.parse content = None ->
  loadTasks w = Some (freshData, say [] [ErrLoading] w).
Proof.
  intros Hf Hp. unfold loadTasks. rewrite Hf, Hp. io_run. unfold say.
  by rewrite app_nil_r.
Qed.

Lemma loadTasks_absent w : file w = None -> loadTasks w = Some (freshData, say [] [] w).
Proof. intros Hf. unfold loadTasks. by rewrite Hf, say_nil. Qed.

(** A text that does not begin as a JSON value is rejected. *)
Lemma parse_not_json content :
  starts_json_value content = false -> JSON.parse content = None.
Proof.
  unfold starts_json_value, JSON.parse. intros H.
  cbn [JSON.parse_value]. destruct (JSON.skip_ws content) as [|c r]; [done |].
  repeat (apply orb_false_elim in H as [H ?]).
  destruct (JS.digit_of c) eqn:Ed; [discriminate |].
  unfold JSON.parse_number, JSON.parse_digits. cbn [JS.take_digits]. rewrite Ed.
  repeat match goal with E : Ascii.eqb _ _ = false |- _ => rewrite !E; clear E end.
  reflexivity.
Qed.

Lemma loadTasks_not_json w content :
  file w = Some content -> starts_json_value content = false ->
  loadTasks w = Some (freshData, say [] [ErrLoading] w).
Proof. intros Hf Hp. apply loadTasks_unreadable with content; [done |]. by apply parse_not_json. Qed.

(** [addTask] after a load that printed [err]: the world it leaves. *)
Lemma addTask_from taskName w d err :
  loadTasks w = Some (d, say [] err w) ->
  let d' := appended d taskName (clock w (tick w)) in
  addTask taskName w =
  Some (tt, mkWorld (if writable w then Some (encode d') else file w) (writable w)
                    (clock w) (S (tick w))
                    (stdout w ++ [MsgTaskAdded taskName;
                                  MsgSerialNumber (length (getPendingTasks d'))])
                    (stderr w ++ err ++ (if writable w then [] else [ErrSaving]))).
Proof.
  intros Hl d'. unfold addTask. unfold mbind at 1, IO_bind, bind. rewrite Hl.
  unfold mbind at 1, IO_bind, bind. unfold newDate at 1. cbn [say tick clock].
  unfold mbind at 1, IO_bind, bind. rewrite saveTasks_run. cbn [writable].
  fold d'. destruct (writable w) eqn:Hw; io_run; unfold say;
    cbn [file writable clock tick stdout stderr]; rewrite Hw;
    cbn [file writable clock tick stdout stderr];
    by rewrite ?app_nil_r, <- ?app_assoc.
Qed.

Lemma add_line_from line w d err :
  is_add_line line -> loadTasks w = Some (d, say [] err w) ->
  let d' := appended d (task_name line) (clock w (tick w)) in
  processCommand line w =
  Some (true, mkWorld (if writable w then Some (encode d') else file w) (writable w)
                      (clock w) (S (tick w))
                      (stdout w ++ [MsgTaskAdded (task_name line);
                                    MsgSerialNumber (length (getPendingTasks d) + 1)])
                      (stderr w ++ err ++ (if writable w then [] else [ErrSaving]))).
Proof.
  intros (Ht & Hc & Ha) Hl d'.
  apply processCommand_run; [by apply reaches_switch_command with "add" |].
  rewrite Hc, dispatch_add by done. fold (task_name line).
  rewrite (addTask_from _ w d err Hl). cbv zeta. fold d'. unfold d'.
  by rewrite pending_appended, length_app.
Qed.

(** X11: without a file, or with a file whose text does not begin as a
    JSON value does, the store starts empty with the counter at 1.  An
    [add] line of ASCII characters then writes a file that holds the new
    task alone, with identifier 1, and reports serial number 1; what the
    unreadable file held is replaced, after one line on the error stream,
    and a missing file is created silently. *)
Theorem add_starts_afresh (line : string) (w : World) :
  file w = None \/
  (exists content, file w = Some content /\ starts_json_value content = false) ->
  writable w = true -> ascii_only line = true -> is_add_line line ->
  exists w',
    processCommand line w = Some (true, w') /\
    stored w' = Some (mkTaskData
                        [mkTask 1 (task_name line) false false (clock w (tick w)) None None]
                        2) /\
    stdout w' = stdout w ++ [MsgTaskAdded (task_name line); MsgSerialNumber 1] /\
    stderr w' = stderr w ++ match file w with Some _ => [ErrLoading] | None => [] end.
Proof.
  intros Hfile Hw _ Hline.
  assert (loadTasks w = Some (freshData, say [] match file w with Some _ => [ErrLoading] | None => [] end w))
    as Hl.
  { destruct Hfile as [Hf | (content & Hf & Hp)].
    - rewrite Hf. by apply loadTasks_absent.
    - rewrite Hf. by apply loadTasks_not_json with content. }
  rewrite (add_line_from line w _ _ Hline Hl), Hw. eexists. split; [reflexivity |].
  split_and!.
  - by apply stored_encode.
  - done.
  - cbn [stderr]. by rewrite app_nil_r.
Qed.

Lemma load_then_says_err {A} (k : TaskData -> IO A) w d err a out :
  loadTasks w = Some (d, say [] err w) -> says (k d) a out ->
  exists w', (loadTasks ≫= k) w = Some (a, w') /\ reports w out w' /\
             stderr w' = stderr w ++ err.
Proof.
  intros Hl Hk. unfold mbind at 1, IO_bind at 1, bind at 1. rewrite Hl.
  destruct (Hk (say [] err w)) as (w' & E & R & S).
  exists w'. split_and!; [done | | by rewrite S].
  replace out with ([] ++ out) by done. eapply reports_trans; [| exact R].
  world_facts.
Qed.

(** X12: a file whose text does not begin as a JSON value does reads as
    an empty store, and reading does not repair it.  On a line of ASCII
    characters, [display] (or [list], [show]) and [archive] print their
    empty notice after one line on the error stream, [done n] and
    [delete n] find no task under any number, and the file keeps its
    content. *)
Theorem unreadable_file_reads_as_empty (line : string) (w : World) (content : string) :
  file w = Some content -> starts_json_value content = false ->
  ascii_only line = true -> JS.trim line <> "" ->
  (In (command_of (JS.trim line)) ["display"; "list"; "show"] ->
   exists w', processCommand line w = Some (true, w') /\
              reports w [MsgNoPending] w' /\ stderr w' = stderr w ++ [ErrLoading]) /\
  (command_of (JS.trim line) = "archive" ->
   exists w', processCommand line w = Some (true, w') /\
              reports w [MsgArchiveEmpty] w' /\ stderr w' = stderr w ++ [ErrLoading]) /\
  (forall n,
     (command_of (JS.trim line) = "done" /\
      JS.parseInt (args_of (JS.trim line)) = Some n) \/
     (command_of (JS.trim line) = "delete" /\
      JS.parseInt (JS.trim (JS.toLowerCase (args_of (JS.trim line)))) = Some n) ->
     exists w', processCommand line w = Some (true, w') /\
                reports w [MsgInvalidTaskNumber] w').
Proof.
  intros Hf Hp _ Ht. pose proof (loadTasks_not_json w content Hf Hp) as Hl.
  assert (stored w = Some freshData) as Hs by (unfold stored; by rewrite Hl).
  split_and!.
  - intros Hc.
    destruct (load_then_says_err
                (fun data =>
                   let pendingTasks := getPendingTasks data in
                   if bool_decide (length pendingTasks = 0%nat)
                   then console_log MsgNoPending
                   else
                     console_log MsgRule;;
                     console_log MsgPendingHeader;;
                     console_log MsgRule;;
                     forEach pendingTasks 0%nat
                       (fun task index _ =>
                          console_log (MsgPendingItem (index + 1) (name task))) tt;;
                     console_log MsgRule;;
                     console_log (MsgTotalPending (length pendingTasks));;
                     console_log MsgRule)
                w freshData [ErrLoading] tt [MsgNoPending] Hl)
      as (w' & E & R & S); [apply says_log |].
    exists w'. split_and!; try done.
    apply processCommand_run.
    + cbn in Hc. repeat split; try done;
        destruct Hc as [<- | [<- | [<- | []]]]; discriminate.
    + unfold dispatch. cbn in Hc.
      by destruct Hc as [<- | [<- | [<- | []]]];
        cbn [String.eqb Ascii.eqb Bool.eqb andb orb].
  - intros Hc.
    destruct (load_then_says_err
                (fun data =>
                   let completedTasks := getArchivedTasks data in
                   if bool_decide (length completedTasks = 0%nat)
                   then console_log MsgArchiveEmpty
                   else
                     console_log MsgRule;;
                     console_log MsgArchiveHeader;;
                     console_log MsgRule;;
                     forEach completedTasks 0%nat
                       (fun task index _ =>
                          console_log (MsgArchiveItem (index + 1) (name task));;
                          console_log (MsgArchiveCompletedAt (completedAt task))) tt;;
                     console_log MsgRule;;
                     console_log (MsgTotalCompleted (length completedTasks));;
                     console_log MsgRule)
                w freshData [ErrLoading] tt [MsgArchiveEmpty] Hl)
      as (w' & E & R & S); [apply says_log |].
    exists w'. split_and!; try done.
    apply processCommand_run; [by apply reaches_switch_command with "archive" |].
    by rewrite Hc.
  - intros n [[Hc Hn] | [Hc Hn]].
    + destruct (markDone_invalid n w freshData Hs) as (w' & E & R); [cbn; lia |].
      exists w'. split; [| done].
      apply processCommand_run; [by apply reaches_switch_command with "done" |].
      by rewrite Hc, (dispatch_done_number _ n).
    + destruct (deleteTask_invalid _ w freshData n Hs Hn) as (w' & E & R); [cbn; lia |].
      exists w'. split; [| done].
      apply processCommand_run; [by apply reaches_switch_command with "delete" |].
      rewrite Hc, dispatch_delete; [done |].
      apply delete_argument_given. intros E0. by rewrite E0 in Hn.
Qed.

Lemma location_line_run line w :
  JS.trim line <> "" -> command_of (JS.trim line) = "location" ->
  exists w',
    processCommand line w = Some (true, w') /\
    reports w [MsgLocationHeader; MsgLocationPath;
               MsgFileExists (bool_decide (is_Some (file w)))] w' /\
    stderr w' = stderr w.
Proof.
  intros Ht Hc. eexists. split.
  - apply processCommand_run; [by apply reaches_switch_command with "location" |].
    rewrite Hc. unfold dispatch. cbn [String.eqb Ascii.eqb Bool.eqb andb orb].
    unfold showLocation. io_run. reflexivity.
  - split; [| done]. world_facts.
Qed.

(** X13: [location] does not read the file: from any world, whatever the
    file holds, it prints the path and whether the file exists, and
    creates nothing.  A missing file is reported as missing until the
    first save: after an [add] line of ASCII characters that could write,
    it exists. *)
Theorem location_reports_the_file (line : string) (w : World) :
  JS.trim line <> "" -> command_of (JS.trim line) = "location" ->
  (exists w',
     processCommand line w = Some (true, w') /\
     reports w [MsgLocationHeader; MsgLocationPath;
                MsgFileExists (bool_decide (is_Some (file w)))] w' /\
     stderr w' = stderr w) /\
  (forall addLine d w1,
     stored w = Some d -> writable w = true ->
     ascii_only addLine = true -> is_add_line addLine ->
     processCommand addLine w = Some (true, w1) ->
     exists w2,
       processCommand line w1 = Some (true, w2) /\
       stdout w2 = stdout w1 ++ [MsgLocationHeader; MsgLocationPath; MsgFileExists true]).
Proof.
  intros Ht Hc. split; [by apply location_line_run |].
  intros addLine d w1 H Hw _ Hadd E1.
  destruct (add_line_run addLine w d Hadd H) as (w1' & E1' & Cf & _).
  rewrite E1 in E1'. injection E1' as <-. rewrite Hw in Cf.
  destruct (location_line_run line w1 Ht Hc) as (w2 & E2 & R & _).
  exists w2. split; [done |]. destruct R as (_ & _ & _ & _ & ->).
  rewrite Cf. by rewrite bool_decide_eq_true_2.
Qed.


(** ** Whole sessions *)
























(** ** Tokens, case and spacing *)

Lemma trimStart_text s : starts_with_text s -> JS.trimStart s = s.
Proof. destruct s as [|c r]; [done |]. cbn. by intros ->. Qed.

Lemma trimEnd_cons c r :
  JS.trimEnd (String c r) =
  match JS.trimEnd r with
  | EmptyString => if JS.is_space c then EmptyString else String c EmptyString
  | r' => String c r'
  end.
Proof. done. Qed.

Lemma trimEnd_fixed s : no_trailing_space s = true -> JS.trimEnd s = s.
Proof.
  induction s as [|c r IH]; [done |]. destruct r as [|c' r'].
  - cbn. by destruct (JS.is_space c).
  - intros H. change (no_trailing_space (String c' r') = true) in H.
    by rewrite trimEnd_cons, (IH H).
Qed.

Lemma trim_fixed s : starts_with_text s -> no_trailing_space s = true -> JS.trim s = s.
Proof. intros H1 H2. unfold JS.trim. by rewrite trimStart_text, trimEnd_fixed. Qed.

Lemma trimEnd_no_trailing s : no_trailing_space (JS.trimEnd s) = true.
Proof.
  induction s as [|c r IH]; [done |]. rewrite trimEnd_cons.
  destruct (JS.trimEnd r) as [|c' r'] eqn:E.
  - destruct (JS.is_space c) eqn:Ec; [done |]. cbn. by rewrite Ec.
  - exact IH.
Qed.

Lemma trimEnd_head c r : JS.is_space c = false -> exists r', JS.trimEnd (String c r) = String c r'.
Proof.
  intros Hc. rewrite trimEnd_cons. destruct (JS.trimEnd r); [| by eexists].
  rewrite Hc. by eexists.
Qed.

Lemma trimStart_head s : JS.trimStart s = "" \/ starts_with_text (JS.trimStart s).
Proof.
  induction s as [|c r IH]; [by left |]. cbn [JS.trimStart].
  destruct (JS.is_space c) eqn:Ec; [done |]. right. done.
Qed.

Lemma trim_edges line :
  JS.trim line <> "" ->
  starts_with_text (JS.trim line) /\ no_trailing_space (JS.trim line) = true.
Proof.
  intros Hne. split; [| apply trimEnd_no_trailing]. unfold JS.trim in *.
  destruct (trimStart_head line) as [E | Hs]; [by rewrite E in Hne |].
  destruct (JS.trimStart line) as [|c r]; [done |]. cbn in Hs.
  destruct (trimEnd_head c r Hs) as [r' ->]. done.
Qed.

Lemma split_ws_pieces s :
  s <> "" -> no_trailing_space s = true ->
  exists t ts, JS.split_ws s = t :: ts /\
    (starts_with_text s -> t <> "") /\
    all_chars (fun c => negb (JS.is_space c)) t = true /\ Forall is_word ts.
Proof.
  induction s as [|c r IH]; [done |]. intros _ Hn. cbn [JS.split_ws].
  destruct (JS.is_space c) eqn:Ec.
  - destruct r as [|c' r']; [cbn in Hn; by rewrite Ec in Hn |].
    change (no_trailing_space (String c' r') = true) in Hn.
    destruct (IH ltac:(done) Hn) as (t & ts & E & Hne & Ht & Hts).
    destruct (JS.is_space c') eqn:Ec'.
    + exists t, ts. split_and!; try done. cbn. by rewrite Ec.
    + exists "", (JS.split_ws (String c' r')). split_and!; try done.
      * cbn. by rewrite Ec.
      * rewrite E. constructor; [| done]. split; [| done]. apply Hne. by cbn.
  - destruct r as [|c' r'].
    + exists (String c ""), []. cbn. rewrite Ec. by split_and!.
    + change (no_trailing_space (String c' r') = true) in Hn.
      destruct (IH ltac:(done) Hn) as (t & ts & E & Hne & Ht & Hts).
      rewrite E. exists (String c t), ts. split_and!; try done.
      cbn. by rewrite Ec.
Qed.

Lemma split_ws_words s :
  starts_with_text s -> no_trailing_space s = true -> Forall is_word (JS.split_ws s).
Proof.
  intros Hs Hn. destruct (split_ws_pieces s) as (t & ts & E & Hne & Ht & Hts);
    [by destruct s | done |].
  rewrite E. constructor; [| done]. split; [by apply Hne | done].
Qed.

Lemma word_text s : is_word s -> starts_with_text s.
Proof.
  intros [Hne H]. destruct s as [|c r]; [done |]. cbn in *.
  apply andb_prop in H as [Hc _]. by apply negb_true_iff.
Qed.

Lemma word_no_trailing s :
  all_chars (fun c => negb (JS.is_space c)) s = true -> no_trailing_space s = true.
Proof.
  induction s as [|c r IH]; [done |]. cbn [all_chars]. intros H.
  apply andb_prop in H as [Hc H]. destruct r as [|c' r']; [done |]. by apply IH.
Qed.

Lemma no_trailing_app a b : b <> "" -> no_trailing_space (a +:+ b) = no_trailing_space b.
Proof.
  intros Hb. induction a as [|c a IH]; [done |]. cbn [String.append].
  destruct (a +:+ b) as [|c' r'] eqn:E; [| exact IH].
  destruct a, b; done.
Qed.

Lemma join_words_text ws : ws <> [] -> Forall is_word ws -> starts_with_text (JS.join " " ws).
Proof.
  intros Hne Hall. destruct ws as [|x ws]; [done |].
  apply Forall_cons_1 in Hall as [Hx _]. pose proof (word_text _ Hx) as Hs.
  destruct x as [|c t]; [done |]. by rewrite join_cons_char.
Qed.

Lemma join_cons_cons x y ws :
  JS.join " " (x :: y :: ws) = x +:+ " " +:+ JS.join " " (y :: ws).
Proof. done. Qed.

Lemma join_words_no_trailing ws :
  Forall is_word ws -> no_trailing_space (JS.join " " ws) = true.
Proof.
  induction ws as [|x ws IH]; [done |]. intros Hall.
  apply Forall_cons_1 in Hall as [[_ Hx] Hws]. destruct ws as [|y ws].
  - by apply word_no_trailing.
  - rewrite join_cons_cons.
    pose proof (join_words_text (y :: ws) ltac:(done) Hws) as Ht.
    rewrite no_trailing_app.
    + change (" " +:+ JS.join " " (y :: ws)) with (String " " (JS.join " " (y :: ws))).
      destruct (JS.join " " (y :: ws)) eqn:E; [done |]. by apply IH.
    + done.
Qed.

Lemma split_join_words ws : ws <> [] -> Forall is_word ws -> JS.split_ws (JS.join " " ws) = ws.
Proof.
  induction ws as [|x ws IH]; [done |]. intros _ Hall.
  apply Forall_cons_1 in Hall as [Hx Hws]. destruct ws as [|y ws].
  - by apply tokens_of_word.
  - rewrite join_cons_cons, tokens_of_line; try done.
    + f_equal. by apply IH.
    + by apply join_words_text.
Qed.

Lemma trim_join_words ws :
  ws <> [] -> Forall is_word ws -> JS.trim (JS.join " " ws) = JS.join " " ws.
Proof.
  intros Hne Hall. apply trim_fixed; [by apply join_words_text | by apply join_words_no_trailing].
Qed.

Lemma lower_char_space c : JS.is_space (JS.lower_char c) = JS.is_space c.
Proof. by destruct c as [[] [] [] [] [] [] [] []]. Qed.

Lemma lower_char_idemp c : JS.lower_char (JS.lower_char c) = JS.lower_char c.
Proof. by destruct c as [[] [] [] [] [] [] [] []]. Qed.

Lemma toLowerCase_idemp s : JS.toLowerCase (JS.toLowerCase s) = JS.toLowerCase s.
Proof. induction s as [|c r IH]; [done |]. cbn. by rewrite lower_char_idemp, IH. Qed.

Lemma toLowerCase_word s : is_word s -> is_word (JS.toLowerCase s).
Proof.
  intros [Hne H]. split; [by destruct s |].
  clear Hne. induction s as [|c r IH]; [done |]. cbn [all_chars JS.toLowerCase] in *.
  apply andb_prop in H as [Hc H]. by rewrite lower_char_space, Hc, IH.
Qed.

(** The tokens of a line that is not blank. *)
Lemma tokens_of_trimmed line :
  JS.trim line <> "" ->
  exists t ts, JS.split_ws (JS.trim line) = t :: ts /\ Forall is_word (t :: ts).
Proof.
  intros Hne. destruct (trim_edges line Hne) as [Hs Hn].
  pose proof (split_ws_words _ Hs Hn) as Hall.
  destruct (JS.split_ws (JS.trim line)) as [|t ts] eqn:E; [by apply split_ws_not_nil in E |].
  by exists t, ts.
Qed.

(** The line made of the words [ws]: what [processCommand] reads in it. *)
Lemma line_of_words cmd ws :
  Forall is_word (cmd :: ws) ->
  let line := JS.join " " (cmd :: ws) in
  JS.trim line = line /\ line <> "" /\
  command_of line = JS.toLowerCase cmd /\ args_of line = JS.join " " ws.
Proof.
  intros Hall line.
  pose proof (split_join_words (cmd :: ws) ltac:(done) Hall) as Htok.
  pose proof (join_words_text (cmd :: ws) ltac:(done) Hall) as Htext.
  split_and!.
  - by apply trim_join_words.
  - unfold line. by destruct (JS.join " " (cmd :: ws)).
  - unfold command_of, line. by rewrite Htok.
  - unfold args_of, line. by rewrite Htok.
Qed.

Lemma processCommand_same line1 line2 w :
  JS.trim line1 <> "" -> JS.trim line2 <> "" ->
  command_of (JS.trim line1) = command_of (JS.trim line2) ->
  args_of (JS.trim line1) = args_of (JS.trim line2) ->
  processCommand line1 w = processCommand line2 w.
Proof.
  intros H1 H2 Hc Ha. unfold processCommand.
  apply String.eqb_neq in H1, H2. by rewrite H1, H2, Hc, Ha.
Qed.

(** X19: every line of ASCII characters runs as its normal form.  White
    space before and after the line, the length and the kind of the white
    space between its tokens, and the case of its first token make no
    difference to what [processCommand] does. *)
Theorem lines_run_as_their_normal_form (line : string) (w : World) :
  ascii_only line = true ->
  processCommand line w = processCommand (normal_form line) w.
Proof.
  intros _. unfold normal_form. destruct (decide (JS.trim line = "")) as [E | Hne].
  - rewrite E. cbn. unfold processCommand. by rewrite E.
  - destruct (tokens_of_trimmed line Hne) as (t & ts & Htok & Hall).
    rewrite Htok. cbn [hd tl].
    apply Forall_cons_1 in Hall as [Ht Hts].
    destruct (line_of_words (JS.toLowerCase t) ts) as (Htrim & Hne' & Hc & Ha);
      [constructor; [by apply toLowerCase_word | done] |].
    apply processCommand_same; rewrite ?Htrim; try done.
    + unfold command_of at 1. by rewrite Htok, Hc, toLowerCase_idemp.
    + unfold args_of at 1. by rewrite Htok, Ha.
Qed.


Lemma take_digits_prefix x c rest :
  JS.digit_of c = None ->
  fst (JS.take_digits (x +:+ String c rest)) = fst (JS.take_digits x).
Proof.
  intros Hc. induction x as [|a x IH]; cbn [String.append JS.take_digits].
  - by rewrite Hc.
  - destruct (JS.digit_of a); [| done].
    destruct (JS.take_digits (x +:+ String c rest)), (JS.take_digits x).
    cbn in *. by subst.
Qed.

Lemma parseInt_prefix tok c rest :
  is_word tok -> JS.digit_of c = None ->
  JS.parseInt (tok +:+ String c rest) = JS.parseInt tok.
Proof.
  intros Hw Hc. pose proof (word_text _ Hw) as Hs.
  destruct tok as [|a t]; [done |]. cbn in Hs.
  assert (Hbody : forall x,
            match JS.take_digits (x +:+ String c rest) with
            | (Nil, _) => None
            | (u, _) => Some (Z.of_uint u)
            end =
            match JS.take_digits x with
            | (Nil, _) => None
            | (u, _) => Some (Z.of_uint u)
            end).
  { intros x. pose proof (take_digits_prefix x c rest Hc) as E.
    destruct (JS.take_digits (x +:+ String c rest)), (JS.take_digits x).
    cbn in E. by subst. }
  unfold JS.parseInt. cbn [String.append JS.trimStart]. rewrite Hs.
  pose proof (Hbody (String a t)) as Ha. pose proof (Hbody t) as Ht.
  cbn [String.append] in Ha.
  destruct a as [[] [] [] [] [] [] [] []]; first [exact Ha | by rewrite Ht].
Qed.

(** X21: [done] reads the number at the head of its argument string and
    ignores whatever follows the first character that is not a digit: a
    [done] line of ASCII characters whose arguments begin with a word
    followed by anything else runs as the line with that word alone. *)
Theorem done_reads_the_leading_number (line num : string) (c : ascii) (rest : string)
    (w : World) :
  ascii_only line = true ->
  JS.trim line <> "" -> command_of (JS.trim line) = "done" ->
  args_of (JS.trim line) = num +:+ String c rest ->
  is_word num -> JS.digit_of c = None ->
  JS.parseInt (args_of (JS.trim line)) = JS.parseInt num /\
  processCommand line w = processCommand ("done " +:+ num) w.
Proof.
  intros _ Ht Hc Ha Hnum Hd.
  assert (JS.parseInt (args_of (JS.trim line)) = JS.parseInt num) as Hp
    by (rewrite Ha; by apply parseInt_prefix).
  split; [done |].
  destruct (line_of_words "done" [num]) as (Htrim & Hne & Hc' & Ha').
  { constructor; [done |]. by constructor. }
  change (JS.join " " ["done"; num]) with ("done " +:+ num) in *.
  rewrite (processCommand_switch line), (processCommand_switch ("done " +:+ num)).
  - rewrite Htrim, Hc, Hc', Ha'. cbn [JS.join JS.toLowerCase].
    unfold mbind, IO_bind, bind, dispatch.
    cbn [String.eqb Ascii.eqb Bool.eqb andb orb]. by rewrite Hp.
  - apply reaches_switch_command with "done"; rewrite ?Htrim; done.
  - by apply reaches_switch_command with "done".
Qed.

(** ** The further properties on sample stores *)





Lemma blank_line_is_ignored_witness :
  all_chars JS.is_space (String (ascii_of_nat 9) "  ") = true /\
  processCommand (String (ascii_of_nat 9) "  ") one_task_world = Some (true, one_task_world).
Proof.
  assert (H : all_chars JS.is_space (String (ascii_of_nat 9) "  ") = true) by reflexivity.
  split; [done |]. by apply blank_line_is_ignored.
Defined.

Lemma only_exit_words_stop_the_session_witness :
  ascii_only " QUIT now" = true /\ is_exit_line " QUIT now" /\
  exists w', processCommand " QUIT now" one_task_world = Some (false, w') /\
             reports one_task_world [MsgGoodbye] w'.
Proof.
  assert (H0 : ascii_only " QUIT now" = true) by reflexivity.
  assert (H : is_exit_line " QUIT now").
  { split; [vm_compute; congruence |]. right. left. reflexivity. }
  destruct (only_exit_words_stop_the_session " QUIT now" one_task_world H0) as [Hexit _].
  split; [exact H0 |]. split; [exact H |]. exact (Hexit H).
Defined.

Lemma lines_after_exit_are_not_run_witness :
  is_exit_line "exit" /\
  readLoop (["add Pay rent"] ++ "exit" :: ["delete all"]) one_task_world
  = readLoop (["add Pay rent"] ++ ["exit"]) one_task_world.
Proof.
  assert (H : is_exit_line "exit").
  { split; [vm_compute; congruence |]. left. reflexivity. }
  split; [done |]. by apply lines_after_exit_are_not_run.
Defined.

Lemma unknown_words_are_reported_witness :
  ascii_only "Remove 1" = true /\
  JS.trim "Remove 1" <> "" /\ ~ In (command_of (JS.trim "Remove 1")) vocabulary /\
  exists w', processCommand "Remove 1" one_task_world = Some (true, w') /\
             reports one_task_world
                     [MsgUnknownCommand (command_of (JS.trim "Remove 1")); MsgTypeHelp] w'.
Proof.
  assert (H1 : JS.trim "Remove 1" <> "") by (vm_compute; congruence).
  assert (H2 : ~ In (command_of (JS.trim "Remove 1")) vocabulary).
  { vm_compute. intros H. repeat destruct H as [H | H]; try discriminate H. exact H. }
  split; [reflexivity |]. split; [exact H1 |]. split; [exact H2 |].
  exact (unknown_words_are_reported "Remove 1" one_task_world eq_refl H1 H2).
Defined.

Lemma missing_argument_is_reported_witness :
  is_word (JS.trim " ADD ") /\ JS.toLowerCase (JS.trim " ADD ") = "add" /\
  exists w', processCommand " ADD " one_task_world = Some (true, w') /\
             reports one_task_world [MsgProvideTaskName; MsgAddUsage] w'.
Proof.
  assert (H1 : is_word (JS.trim " ADD ")) by (split; [vm_compute; congruence | reflexivity]).
  assert (H2 : JS.toLowerCase (JS.trim " ADD ") = "add") by reflexivity.
  split_and!; try done.
  destruct (missing_argument_is_reported " ADD " one_task_world H1) as [Hadd _].
  by apply Hadd.
Defined.






Lemma add_starts_afresh_witness :
  (exists content, file unreadable_world = Some content /\
                   starts_json_value content = false) /\
  writable unreadable_world = true /\ ascii_only "add Buy milk" = true /\
  is_add_line "add Buy milk" /\
  exists w',
    processCommand "add Buy milk" unreadable_world = Some (true, w') /\
    stored w' = Some (mkTaskData [mkTask 1 "Buy milk" false false (sample_clock 0) None None]
                                 2) /\
    stdout w' = [MsgTaskAdded "Buy milk"; MsgSerialNumber 1] /\
    stderr w' = [ErrLoading].
Proof.
  assert (H1 : exists content, file unreadable_world = Some content /\
                               starts_json_value content = false)
    by (exists "Buy milk, pay rent"; split; reflexivity).
  assert (H2 : writable unreadable_world = true) by reflexivity.
  assert (H3 : is_add_line "add Buy milk") by (vm_compute; split_and!; congruence).
  split; [exact H1 |]. split; [exact H2 |]. split; [reflexivity |]. split; [exact H3 |].
  exact (add_starts_afresh "add Buy milk" unreadable_world (or_intror H1) H2 eq_refl H3).
Defined.

Lemma unreadable_file_reads_as_empty_witness :
  file unreadable_world = Some "Buy milk, pay rent" /\
  starts_json_value "Buy milk, pay rent" = false /\
  ascii_only "display" = true /\ JS.trim "display" <> "" /\
  exists w', processCommand "display" unreadable_world = Some (true, w') /\
             reports unreadable_world [MsgNoPending] w' /\
             stderr w' = stderr unreadable_world ++ [ErrLoading].
Proof.
  assert (H1 : file unreadable_world = Some "Buy milk, pay rent") by reflexivity.
  assert (H2 : starts_json_value "Buy milk, pay rent" = false) by reflexivity.
  assert (H3 : JS.trim "display" <> "") by (vm_compute; congruence).
  destruct (unreadable_file_reads_as_empty "display" _ _ H1 H2 eq_refl H3) as [Hdisplay _].
  split; [exact H1 |]. split; [exact H2 |]. split; [reflexivity |]. split; [exact H3 |].
  apply Hdisplay. left. reflexivity.
Defined.

Lemma location_reports_the_file_witness :
  JS.trim "location" <> "" /\ command_of (JS.trim "location") = "location" /\
  exists w',
    processCommand "location" empty_world = Some (true, w') /\
    reports empty_world [MsgLocationHeader; MsgLocationPath; MsgFileExists false] w'.
Proof.
  assert (H1 : JS.trim "location" <> "") by (vm_compute; congruence).
  assert (H2 : command_of (JS.trim "location") = "location") by reflexivity.
  split_and!; try done.
  destruct (location_reports_the_file "location" empty_world H1 H2)
    as [(w' & E & R & _) _].
  by exists w'.
Defined.







Lemma done_reads_the_leading_number_witness :
  ascii_only "done 1st task" = true /\ JS.trim "done 1st task" <> "" /\ command_of (JS.trim "done 1st task") = "done" /\
  args_of (JS.trim "done 1st task") = "1" +:+ String "s" "t task" /\
  is_word "1" /\ JS.digit_of "s" = None /\
  JS.parseInt (args_of (JS.trim "done 1st task")) = JS.parseInt "1" /\
  processCommand "done 1st task" one_task_world = processCommand ("done " +:+ "1") one_task_world.
Proof.
  assert (H1 : JS.trim "done 1st task" <> "") by (vm_compute; congruence).
  assert (H2 : command_of (JS.trim "done 1st task") = "done") by reflexivity.
  assert (H3 : args_of (JS.trim "done 1st task") = "1" +:+ String "s" "t task")
    by reflexivity.
  assert (H4 : is_word "1") by (split; [congruence | reflexivity]).
  assert (H5 : JS.digit_of "s" = None) by reflexivity.
  pose proof (done_reads_the_leading_number "done 1st task" _ _ _ one_task_world
                eq_refl H1 H2 H3 H4 H5)
    as [Hnumber Hrun].
  split; [reflexivity |].
  split_and!; [exact H1 | exact H2 | exact H3 | exact H4 | exact H5 | exact Hnumber
              | exact Hrun].
Defined.

Lemma lines_run_as_their_normal_form_witness :
  ascii_only "  ADD   Pay    rent " = true /\
  normal_form "  ADD   Pay    rent " = "add Pay rent" /\
  processCommand "  ADD   Pay    rent " one_task_world
  = processCommand (normal_form "  ADD   Pay    rent ") one_task_world.
Proof.
  split; [reflexivity |]. split; [reflexivity |].
  exact (lines_run_as_their_normal_form "  ADD   Pay    rent " one_task_world eq_refl).
Defined.

(** A longer session on the model: blank and unknown lines, aliases in
    upper case, a number with trailing text, and lines after [exit]. *)
Example mixed_session :
  exists w',
    main [] ["  "; "ADD   Pay   rent"; "List"; "done 1st"; "undo"; "archive"; "Quit";
             "delete archive"] one_task_world = Some (tt, w') /\
    stdout w' = [MsgHelp; MsgPrompt; MsgPrompt;
                 MsgTaskAdded "Pay rent"; MsgSerialNumber 2; MsgPrompt;
                 MsgRule; MsgPendingHeader; MsgRule;
                 MsgPendingItem 1 "Buy milk"; MsgPendingItem 2 "Pay rent";
                 MsgRule; MsgTotalPending 2; MsgRule; MsgPrompt;
                 MsgCompleted "Buy milk"; MsgPrompt;
                 MsgUnknownCommand "undo"; MsgTypeHelp; MsgPrompt;
                 MsgRule; MsgArchiveHeader; MsgRule;
                 MsgArchiveItem 1 "Buy milk"; MsgArchiveCompletedAt (Some (sample_clock 1));
                 MsgRule; MsgTotalCompleted 1; MsgRule; MsgPrompt;
                 MsgGoodbye] /\
    (map (fun t => (id t, name t, completed t, hidden t)) <$> (tasks <$> stored w'))
    = Some [(1, "Buy milk", true, false); (2, "Pay rent", false, false)].
Proof.
  eexists. split; [vm_compute; reflexivity |]. split; vm_compute; reflexivity.
Qed.

(** * The earlier revision: properties *)

Ltac legacy_run :=
  unfold mbind, Legacy.IO_bind, Legacy.bind, mret, Legacy.IO_ret, Legacy.ret,
    Legacy.console_log, Legacy.console_error, Legacy.throw, Legacy.newDate, Legacy.write;
  cbn [fst snd Legacy.file Legacy.writable Legacy.clock Legacy.tick Legacy.stdout
       Legacy.stderr].

Lemma earlier_as_Task_to_json t : Legacy.as_Task (Legacy.task_to_json t) = Some t.
Proof. by destruct t as [i n c ca [co|]]. Qed.

Lemma earlier_as_Tasks_to_json l :
  mapM Legacy.as_Task (map Legacy.task_to_json l) = Some l.
Proof.
  induction l as [|t l IH]; [done |].
  cbn [map mapM]. rewrite earlier_as_Task_to_json. cbn. rewrite IH. reflexivity.
Qed.

Lemma earlier_as_TaskData_to_json d : Legacy.as_TaskData (Legacy.data_to_json d) = Some d.
Proof.
  destruct d as [l n]. unfold Legacy.as_TaskData, Legacy.data_to_json.
  cbn [Legacy.tasks Legacy.nextId].
  change (member "tasks" _) with (Some (JSON.Arr (map Legacy.task_to_json l))).
  change (member "nextId" _) with (Some (JSON.Num n)).
  cbn. rewrite earlier_as_Tasks_to_json. reflexivity.
Qed.

Lemma earlier_stored_encode w d :
  Legacy.file w = Some (Legacy.encode d) -> Legacy.stored w = Some d.
Proof.
  unfold Legacy.stored, Legacy.loadTasks, Legacy.encode. intros ->.
  by rewrite JSONFacts.parse_stringify, earlier_as_TaskData_to_json.
Qed.

Lemma earlier_stored_file w w' :
  Legacy.file w' = Legacy.file w -> Legacy.stored w' = Legacy.stored w.
Proof.
  unfold Legacy.stored, Legacy.loadTasks. intros ->.
  destruct (Legacy.file w) as [content|]; [| done].
  destruct (JSON.parse content) as [doc|]; [| done].
  by destruct (Legacy.as_TaskData doc).
Qed.

(** A load that succeeds changes nothing but the error stream. *)
Lemma earlier_loadTasks_stored w d :
  Legacy.stored w = Some d ->
  exists err, Legacy.loadTasks w =
              Some (d, Legacy.mkWorld (Legacy.file w) (Legacy.writable w) (Legacy.clock w)
                                      (Legacy.tick w) (Legacy.stdout w)
                                      (Legacy.stderr w ++ err)).
Proof.
  unfold Legacy.stored, Legacy.loadTasks. intros H.
  destruct (Legacy.file w) as [content|] eqn:Ef.
  - destruct (JSON.parse content) as [doc|].
    + destruct (Legacy.as_TaskData doc) as [d'|]; [| done].
      injection H as ->. exists []. rewrite app_nil_r, <- Ef. by destruct w.
    + unfold mbind, Legacy.IO_bind, Legacy.bind, mret, Legacy.IO_ret, Legacy.ret,
        Legacy.console_error in H |- *.
      cbn in H. injection H as <-. exists [Legacy.ErrLoading].
      cbn [Legacy.file Legacy.writable Legacy.clock Legacy.tick Legacy.stdout
           Legacy.stderr]. by rewrite Ef.
  - injection H as <-. exists []. rewrite app_nil_r, <- Ef. by destruct w.
Qed.

Lemma earlier_addTask_run taskName w d :
  Legacy.stored w = Some d -> Legacy.writable w = true ->
  exists w',
    Legacy.addTask taskName w = Some (tt, w') /\
    Legacy.file w' = Some (Legacy.encode (Legacy.appended d taskName
                                             (Legacy.clock w (Legacy.tick w)))) /\
    Legacy.stdout w' = Legacy.stdout w ++ [Legacy.MsgTaskAdded taskName] /\
    Legacy.writable w' = true /\ Legacy.clock w' = Legacy.clock w /\
    Legacy.tick w' = S (Legacy.tick w).
Proof.
  intros H Hw. destruct (earlier_loadTasks_stored _ _ H) as [err Hl].
  unfold Legacy.addTask. unfold mbind at 1, Legacy.IO_bind at 1, Legacy.bind at 1.
  rewrite Hl. unfold Legacy.saveTasks. legacy_run. rewrite Hw.
  eexists. split; [reflexivity |]. by cbn.
Qed.

Lemma earlier_addTask_rejected taskName w :
  Legacy.writable w = false -> Legacy.addTask taskName w = None.
Proof.
  intros Hw. unfold Legacy.addTask, Legacy.saveTasks.
  unfold mbind at 1, Legacy.IO_bind at 1, Legacy.bind at 1.
  unfold Legacy.loadTasks.
  destruct (Legacy.file w) as [content|]; [| legacy_run; by rewrite Hw].
  destruct (JSON.parse content) as [doc|]; [| legacy_run; by rewrite Hw].
  destruct (Legacy.as_TaskData doc); [| done]. legacy_run. by rewrite Hw.
Qed.

Lemma earlier_clearAllTasks_run w :
  Legacy.writable w = true ->
  Legacy.clearAllTasks w =
  Some (tt, Legacy.mkWorld (Some (Legacy.encode Legacy.freshData)) true (Legacy.clock w)
                           (Legacy.tick w) (Legacy.stdout w ++ [Legacy.MsgCleared])
                           (Legacy.stderr w)).
Proof.
  intros Hw. unfold Legacy.clearAllTasks, Legacy.saveTasks. legacy_run. by rewrite Hw.
Qed.

(** ** [clear] *)

Lemma earlier_switch_clear line w :
  Legacy.command_of line = "clear" \/ Legacy.command_of line = "--clear" ->
  Legacy.processCommand line w = (Legacy.clearAllTasks;; mret true) w.
Proof.
  intros H. unfold Legacy.processCommand.
  by destruct H as [-> | ->].
Qed.

(** X22: in the earlier revision [clear] and [--clear] replace the file
    by the empty store with the counter back at 1, without reading what
    the file held, and report it.  The next task added gets identifier 1
    again, whatever identifiers had been given out before. *)
Theorem earlier_clear_restarts_the_store (line : string) (w : Legacy.World) :
  Legacy.command_of line = "clear" \/ Legacy.command_of line = "--clear" ->
  Legacy.writable w = true ->
  exists w',
    Legacy.processCommand line w = Some (true, w') /\
    Legacy.stored w' = Some Legacy.freshData /\
    Legacy.stdout w' = Legacy.stdout w ++ [Legacy.MsgCleared] /\
    Legacy.stderr w' = Legacy.stderr w /\
    forall taskName, exists w'',
      Legacy.addTask taskName w' = Some (tt, w'') /\
      Legacy.stored w'' =
        Some (Legacy.mkTaskData
                [Legacy.mkTask 1 taskName false (Legacy.clock w (Legacy.tick w)) None] 2).
Proof.
  intros Hc Hw. rewrite (earlier_switch_clear _ _ Hc).
  unfold mbind at 1, Legacy.IO_bind at 1, Legacy.bind at 1.
  rewrite (earlier_clearAllTasks_run _ Hw). eexists. split; [reflexivity |].
  assert (Hs : Legacy.stored
                 (Legacy.mkWorld (Some (Legacy.encode Legacy.freshData)) true
                    (Legacy.clock w) (Legacy.tick w)
                    (Legacy.stdout w ++ [Legacy.MsgCleared]) (Legacy.stderr w))
               = Some Legacy.freshData) by by apply earlier_stored_encode.
  split_and!; try done. intros taskName.
  destruct (earlier_addTask_run taskName _ _ Hs eq_refl) as (w'' & E & Hf & _).
  exists w''. split; [done |]. by apply earlier_stored_encode.
Qed.

(** ** Lines of the earlier revision *)

Lemma earlier_split_not_nil s : Legacy.split_space s <> [].
Proof.
  induction s as [|c r IH]; [done |]. cbn [Legacy.split_space].
  destruct (Ascii.eqb c " "); [done |]. by destruct (Legacy.split_space r).
Qed.

Lemma earlier_split_piece cmd rest :
  Legacy.no_space cmd = true ->
  Legacy.split_space (cmd +:+ String " " rest) = cmd :: Legacy.split_space rest.
Proof.
  unfold Legacy.no_space. induction cmd as [|c cmd IH]; cbn [all_chars String.append].
  - done.
  - intros H. apply andb_prop in H as [Hc H]. apply negb_true_iff in Hc.
    cbn [Legacy.split_space]. by rewrite Hc, (IH H).
Qed.

Lemma earlier_join_split s : JS.join " " (Legacy.split_space s) = s.
Proof.
  induction s as [|c r IH]; [done |]. cbn [Legacy.split_space].
  destruct (Ascii.eqb_spec c " ") as [-> | Hc].
  - pose proof (earlier_split_not_nil r) as Hne.
    destruct (Legacy.split_space r) as [|t ts]; [done |].
    change (JS.join " " ("" :: t :: ts)) with (String " " (JS.join " " (t :: ts))).
    by rewrite IH.
  - pose proof (earlier_split_not_nil r) as Hne.
    destruct (Legacy.split_space r) as [|t ts]; [done |].
    by rewrite join_cons_char, IH.
Qed.

(** The pieces of a line made of a first piece, one space and a text. *)
Lemma earlier_parts line cmd raw :
  JS.trim line = cmd +:+ " " +:+ raw -> Legacy.no_space cmd = true ->
  Legacy.parts_of line = cmd :: Legacy.split_space raw /\
  Legacy.command_of line = JS.toLowerCase cmd /\
  (1 < length (Legacy.parts_of line))%nat /\
  JS.join " " (tl (Legacy.parts_of line)) = raw.
Proof.
  intros Ht Hc. unfold Legacy.command_of, Legacy.parts_of. rewrite Ht.
  change (cmd +:+ " " +:+ raw) with (cmd +:+ String " " raw).
  rewrite (earlier_split_piece _ _ Hc). cbn [hd tl length].
  split_and!; try done.
  - pose proof (earlier_split_not_nil raw). destruct (Legacy.split_space raw); [done |].
    cbn. lia.
  - apply earlier_join_split.
Qed.

Lemma earlier_add_dispatch line x w :
  Legacy.command_of line = "add--" +:+ x ->
  Legacy.processCommand line w =
  (let taskName := JS.trim x in
   let taskName :=
     if String.eqb taskName "" && bool_decide (1 < length (Legacy.parts_of line))%nat
     then JS.join " " (tl (Legacy.parts_of line)) else taskName in
   if String.eqb taskName "" then
     Legacy.console_log Legacy.MsgProvideTaskName;;
     Legacy.console_log Legacy.MsgAddUsage;; mret true
   else Legacy.addTask taskName;; mret true) w.
Proof. intros H. unfold Legacy.processCommand. rewrite H. reflexivity. Qed.

Lemma earlier_done_dispatch line x w :
  Legacy.command_of line = "done--" +:+ x ->
  Legacy.processCommand line w =
  (let serialStr := JS.trim x in
   let serialStr :=
     if String.eqb serialStr "" && bool_decide (1 < length (Legacy.parts_of line))%nat
     then default EmptyString (Legacy.parts_of line !! 1%nat) else serialStr in
   match JS.parseInt serialStr with
   | None =>
       Legacy.console_log Legacy.MsgProvideTaskNumber;;
       Legacy.console_log Legacy.MsgDoneUsage;; mret true
   | Some serialNumber => Legacy.markDone serialNumber;; mret true
   end) w.
Proof. intros H. unfold Legacy.processCommand. rewrite H. reflexivity. Qed.




(** X25: on a line of ASCII characters, [done--] followed by a space
    reads its number from the second piece of the line alone.  After two
    spaces that piece is empty, and the line is answered with the usage
    message and changes nothing. *)
Theorem earlier_done_reads_the_second_piece (line cmd raw : string) (w : Legacy.World) :
  ascii_only line = true ->
  JS.trim line = cmd +:+ " " +:+ raw -> Legacy.no_space cmd = true ->
  JS.toLowerCase cmd = "done--" ->
  Legacy.processCommand line w =
    match JS.parseInt (hd EmptyString (Legacy.split_space raw)) with
    | None =>
        (Legacy.console_log Legacy.MsgProvideTaskNumber;;
         Legacy.console_log Legacy.MsgDoneUsage;; mret true) w
    | Some n => (Legacy.markDone n;; mret true) w
    end /\
  (forall rest, raw = String " " rest ->
     exists w',
       Legacy.processCommand line w = Some (true, w') /\
       Legacy.stdout w' =
         Legacy.stdout w ++ [Legacy.MsgProvideTaskNumber; Legacy.MsgDoneUsage] /\
       Legacy.file w' = Legacy.file w /\ Legacy.tick w' = Legacy.tick w).
Proof.
  intros _ Ht Hns Hc.
  destruct (earlier_parts line cmd raw Ht Hns) as (Hparts & Hcmd & Hlen & Hjoin).
  rewrite Hc in Hcmd.
  assert (Legacy.processCommand line w =
          match JS.parseInt (hd EmptyString (Legacy.split_space raw)) with
          | None =>
              (Legacy.console_log Legacy.MsgProvideTaskNumber;;
               Legacy.console_log Legacy.MsgDoneUsage;; mret true) w
          | Some n => (Legacy.markDone n;; mret true) w
          end) as Hrun.
  { rewrite (earlier_done_dispatch line "" w Hcmd). cbv zeta.
    change (JS.trim "") with "". cbn [String.eqb andb].
    rewrite bool_decide_eq_true_2 by done. rewrite Hparts.
    pose proof (earlier_split_not_nil raw).
    destruct (Legacy.split_space raw) as [|p ps]; [done |]. cbn [hd].
    change (default EmptyString ((cmd :: p :: ps) !! 1%nat)) with p.
    destruct (JS.parseInt p); reflexivity. }
  split; [done |]. intros rest ->. rewrite Hrun. cbn [Legacy.split_space Ascii.eqb Bool.eqb hd].
  change (JS.parseInt "") with (@None Z). cbv iota.
  legacy_run. eexists. split; [reflexivity |]. cbn. by rewrite <- app_assoc.
Qed.

(** X26: the earlier revision knows [exit], [quit], [q], [display],
    [archive], [help] and [clear] (the last three also with two dashes in
    front) and the prefixes [add--] and [done--].  A line of ASCII
    characters whose first piece, in lower case, is none of these is
    answered as an unknown command and changes nothing: among them [add],
    [done], [delete], [list], [show] and [location], the command words of
    the later revision. *)
Theorem earlier_plain_words_are_unknown (line : string) (w : Legacy.World) :
  ascii_only line = true ->
  Legacy.command_of line <> "" ->
  Legacy.startsWith "add--" (Legacy.command_of line) = false ->
  Legacy.startsWith "done--" (Legacy.command_of line) = false ->
  ~ In (Legacy.command_of line)
       ["exit"; "quit"; "q"; "display"; "--archive"; "archive"; "--help"; "help";
        "--clear"; "clear"] ->
  exists w',
    Legacy.processCommand line w = Some (true, w') /\
    Legacy.stdout w' =
      Legacy.stdout w ++ [Legacy.MsgUnknownCommand (Legacy.command_of line);
                          Legacy.MsgTypeHelp] /\
    Legacy.file w' = Legacy.file w /\ Legacy.tick w' = Legacy.tick w /\
    Legacy.stderr w' = Legacy.stderr w.
Proof.
  intros _ Hne Hadd Hdone Hnot.
  unfold Legacy.processCommand. rewrite Hadd, Hdone.
  repeat match goal with
  | |- context [String.eqb (Legacy.command_of line) ?word] =>
      destruct (String.eqb_spec (Legacy.command_of line) word) as [E | _];
      [exfalso; first [by apply Hne | apply Hnot; rewrite E; cbn; tauto] |]
  end.
  cbn [orb]. legacy_run. eexists. split; [reflexivity |]. cbn. by rewrite <- app_assoc.
Qed.

(** X27: the earlier revision does not catch a failed write.  When the
    file cannot be written, an [add--] line with a name and a [clear]
    line, of ASCII characters, reject: [processCommand] does not return,
    no confirmation is printed by it, and the interactive session ends
    there with the lines that follow unread. *)
Theorem earlier_failed_write_ends_the_run (line x : string) (rest : list string)
    (w : Legacy.World) :
  ascii_only line = true ->
  Legacy.writable w = false ->
  (Legacy.command_of line = "add--" +:+ x /\ JS.trim x <> "") \/
  Legacy.command_of line = "clear" \/ Legacy.command_of line = "--clear" ->
  Legacy.processCommand line w = None /\
  Legacy.readLoop (line :: rest) w = None /\
  Legacy.main [] (line :: rest) w = None.
Proof.
  intros _ Hw Hc.
  assert (forall w0, Legacy.writable w0 = false -> Legacy.processCommand line w0 = None)
    as Hrun.
  { intros w0 Hw0. destruct Hc as [[Hc Hx] | Hc].
    - rewrite (earlier_add_dispatch line x w0 Hc). cbv zeta.
      apply String.eqb_neq in Hx. rewrite Hx. cbn [andb]. rewrite Hx.
      unfold mbind, Legacy.IO_bind, Legacy.bind.
      by rewrite earlier_addTask_rejected.
    - rewrite (earlier_switch_clear _ _ Hc).
      unfold Legacy.clearAllTasks, Legacy.saveTasks. legacy_run. by rewrite Hw0. }
  split_and!.
  - by apply Hrun.
  - cbn [Legacy.readLoop]. unfold mbind at 1, Legacy.IO_bind at 1, Legacy.bind at 1.
    by rewrite Hrun.
  - unfold Legacy.main, Legacy.interactiveMode, Legacy.showHelp. cbn [length bool_decide].
    rewrite bool_decide_eq_true_2 by done. legacy_run.
    cbn [Legacy.readLoop]. unfold mbind at 1, Legacy.IO_bind at 1, Legacy.bind at 1.
    by rewrite Hrun.
Qed.

(** ** The pending list and completions of the earlier revision *)

















(** ** The earlier revision on sample stores *)


Lemma earlier_clear_restarts_the_store_witness :
  (Legacy.command_of " --CLEAR " = "clear" \/ Legacy.command_of " --CLEAR " = "--clear") /\
  Legacy.writable Legacy.one_task_world = true /\
  exists w',
    Legacy.processCommand " --CLEAR " Legacy.one_task_world = Some (true, w') /\
    Legacy.stored w' = Some Legacy.freshData /\
    Legacy.stdout w' = [Legacy.MsgCleared].
Proof.
  assert (H1 : Legacy.command_of " --CLEAR " = "clear" \/
               Legacy.command_of " --CLEAR " = "--clear") by (right; reflexivity).
  assert (H2 : Legacy.writable Legacy.one_task_world = true) by reflexivity.
  split_and!; [exact H1 | exact H2 |].
  destruct (earlier_clear_restarts_the_store _ _ H1 H2) as (w' & E & Hs & Ho & _).
  exists w'. split_and!; [exact E | exact Hs | exact Ho].
Defined.



Lemma earlier_done_reads_the_second_piece_witness :
  ascii_only "done--  1" = true /\
  JS.trim "done--  1" = "done--" +:+ " " +:+ " 1" /\
  Legacy.no_space "done--" = true /\ JS.toLowerCase "done--" = "done--" /\
  exists w',
    Legacy.processCommand "done--  1" Legacy.one_task_world = Some (true, w') /\
    Legacy.stdout w' = [Legacy.MsgProvideTaskNumber; Legacy.MsgDoneUsage] /\
    Legacy.file w' = Legacy.file Legacy.one_task_world.
Proof.
  assert (H1 : JS.trim "done--  1" = "done--" +:+ " " +:+ " 1") by reflexivity.
  assert (H2 : Legacy.no_space "done--" = true) by reflexivity.
  assert (H3 : JS.toLowerCase "done--" = "done--") by reflexivity.
  split; [reflexivity |].
  split_and!; [exact H1 | exact H2 | exact H3 |].
  destruct (earlier_done_reads_the_second_piece "done--  1" _ _ Legacy.one_task_world
              eq_refl H1 H2 H3)
    as [_ Hspace].
  destruct (Hspace "1" eq_refl) as (w' & E & Ho & Hf & _).
  exists w'. split_and!; [exact E | exact Ho | exact Hf].
Defined.

Lemma earlier_plain_words_are_unknown_witness :
  ascii_only "Delete 1" = true /\
  Legacy.command_of "Delete 1" <> "" /\
  Legacy.startsWith "add--" (Legacy.command_of "Delete 1") = false /\
  Legacy.startsWith "done--" (Legacy.command_of "Delete 1") = false /\
  ~ In (Legacy.command_of "Delete 1")
       ["exit"; "quit"; "q"; "display"; "--archive"; "archive"; "--help"; "help";
        "--clear"; "clear"] /\
  exists w',
    Legacy.processCommand "Delete 1" Legacy.one_task_world = Some (true, w') /\
    Legacy.stdout w' = [Legacy.MsgUnknownCommand "delete"; Legacy.MsgTypeHelp] /\
    Legacy.file w' = Legacy.file Legacy.one_task_world.
Proof.
  assert (H1 : Legacy.command_of "Delete 1" <> "") by (vm_compute; congruence).
  assert (H2 : Legacy.startsWith "add--" (Legacy.command_of "Delete 1") = false)
    by reflexivity.
  assert (H3 : Legacy.startsWith "done--" (Legacy.command_of "Delete 1") = false)
    by reflexivity.
  assert (H4 : ~ In (Legacy.command_of "Delete 1")
                    ["exit"; "quit"; "q"; "display"; "--archive"; "archive"; "--help";
                     "help"; "--clear"; "clear"]).
  { vm_compute. intros H. repeat destruct H as [H | H]; try discriminate H. exact H. }
  split; [reflexivity |].
  split; [exact H1 |]. split; [exact H2 |]. split; [exact H3 |]. split; [exact H4 |].
  destruct (earlier_plain_words_are_unknown "Delete 1" Legacy.one_task_world
              eq_refl H1 H2 H3 H4)
    as (w' & E & Ho & Hf & _).
  exists w'. split_and!; [exact E | exact Ho | exact Hf].
Defined.

Lemma earlier_failed_write_ends_the_run_witness :
  ascii_only "add--milk" = true /\
  Legacy.writable Legacy.read_only_world = false /\
  Legacy.command_of "add--milk" = "add--" +:+ "milk" /\ JS.trim "milk" <> "" /\
  Legacy.processCommand "add--milk" Legacy.read_only_world = None /\
  Legacy.main [] ["add--milk"; "display"] Legacy.read_only_world = None.
Proof.
  assert (H1 : Legacy.writable Legacy.read_only_world = false) by reflexivity.
  assert (H2 : Legacy.command_of "add--milk" = "add--" +:+ "milk") by reflexivity.
  assert (H3 : JS.trim "milk" <> "") by (vm_compute; congruence).
  destruct (earlier_failed_write_ends_the_run "add--milk" "milk" ["display"]
              Legacy.read_only_world eq_refl H1 (or_introl (conj H2 H3)))
    as (Hrun & _ & Hmain).
  split; [reflexivity |].
  split_and!; [exact H1 | exact H2 | exact H3 | exact Hrun | exact Hmain].
Defined.



(** A session of the earlier revision on the model: names keep their
    spacing, an attached name is lower-cased, [clear] empties the store
    and the next task gets identifier 1 again. *)
Example earlier_session :
  exists w',
    Legacy.main [] ["add-- Buy   milk"; "add--Rent due"; "display"; "done--1";
                    "--archive"; "clear"; "add-- Start over"; "delete 1"; "q"]
                Legacy.empty_world = Some (tt, w') /\
    Legacy.stdout w' =
      [Legacy.MsgHelp; Legacy.MsgPrompt;
       Legacy.MsgTaskAdded "Buy   milk"; Legacy.MsgPrompt;
       Legacy.MsgTaskAdded "rent"; Legacy.MsgPrompt;
       Legacy.MsgPendingTop; Legacy.MsgPendingHeader; Legacy.MsgPendingSeparator;
       Legacy.MsgPendingItem 1 "Buy   milk                       ";
       Legacy.MsgPendingItem 2 "rent                             ";
       Legacy.MsgPendingBottom; Legacy.MsgPrompt;
       Legacy.MsgCompleted "Buy   milk"; Legacy.MsgPrompt;
       Legacy.MsgArchiveTop; Legacy.MsgArchiveHeader; Legacy.MsgArchiveSeparator;
       Legacy.MsgArchiveItem 1 "Buy   milk                                 ";
       Legacy.MsgArchiveCompletedAt (Some (sample_clock 2));
       Legacy.MsgArchiveBottom; Legacy.MsgPrompt;
       Legacy.MsgCleared; Legacy.MsgPrompt;
       Legacy.MsgTaskAdded "Start over"; Legacy.MsgPrompt;
       Legacy.MsgUnknownCommand "delete"; Legacy.MsgTypeHelp; Legacy.MsgPrompt;
       Legacy.MsgGoodbye] /\
    (map (fun t => (Legacy.id t, Legacy.name t)) <$> (Legacy.tasks <$> Legacy.stored w'))
    = Some [(1, "Start over")].
Proof.
  eexists. split; [vm_compute; reflexivity |]. split; vm_compute; reflexivity.
Qed.
